(** * trameapp: CSV ingestion and liveness probe of the [Home] view

    A shallow embedding of the logic of the page component [Home]
    (the second document of [src/app/theme.ts]): the upload handler
    [handleFileUpload] with the completion callback it hands to the CSV
    parser, [clearData], [has3DColumns], [checkTrameServer] and the mount
    effect that polls it.

    - JavaScript strings are sequences of UTF-16 code units ([list N]).
    - The five [useState] cells form the record [State]; a handler is the
      list of setter calls it performs, in source order, and React commits
      the calls of one handler together ([commit]).
    - The CSV parser and [fetch] are external: their results are inputs. *)

From Stdlib Require Import String Ascii.
From Stdlib Require Import List Arith NArith ZArith Bool Lia.
Import ListNotations.

Set Implicit Arguments.

(** ** JavaScript strings *)

Module JS.

Definition jsstring := list N.

(** A literal of the source, as code units. *)
Definition lit (s : string) : jsstring :=
  map N_of_ascii (list_ascii_of_string s).

(** [a === b] on strings: the same sequence of code units. *)
Fixpoint strictEq (a b : jsstring) : bool :=
  match a, b with
  | [], [] => true
  | x :: a', y :: b' => N.eqb x y && strictEq a' b'
  | _, _ => false
  end.

(** [a !== b]. *)
Definition strictNeq (a b : jsstring) : bool := negb (strictEq a b).

(** ECMAScript WhiteSpace and LineTerminator code points, the ones
    [String.prototype.trim] strips. *)
Definition isWhiteSpace (c : N) : bool :=
  match c with
  | 0x09 | 0x0A | 0x0B | 0x0C | 0x0D | 0x20 | 0xA0
  | 0x1680 | 0x2028 | 0x2029 | 0x202F | 0x205F | 0x3000 | 0xFEFF => true
  | _ => (0x2000 <=? c) && (c <=? 0x200A)
  end%N.

Fixpoint dropWhile (p : N -> bool) (s : jsstring) : jsstring :=
  match s with
  | [] => []
  | c :: s' => if p c then dropWhile p s' else s
  end.

Definition trimStart (s : jsstring) : jsstring := dropWhile isWhiteSpace s.

Definition trimEnd (s : jsstring) : jsstring :=
  rev (dropWhile isWhiteSpace (rev s)).

(** [s.trim()]. *)
Definition trim (s : jsstring) : jsstring := trimEnd (trimStart s).

(** [s.endsWith(search)]: the last [search.length] code units of [s] are
    [search]; false when [search] is longer than [s]. *)
Definition endsWith (s search : jsstring) : bool :=
  if (length search <=? length s)%nat
  then strictEq (skipn (length s - length search) s) search
  else false.

(** The ASCII part of [String.prototype.toLowerCase]: on strings whose code
    units are all below 128 the two agree. *)
Definition asciiToLowerCase (s : jsstring) : jsstring :=
  map (fun c => if (0x41 <=? c) && (c <=? 0x5A) then c + 0x20 else c)%N s.

End JS.

Import JS.

(** A string made of white space only (the empty string included). *)
Definition WhitespaceOnly (s : jsstring) : Prop :=
  Forall (fun c => isWhiteSpace c = true) s.


(** ** Data model *)

(** [interface CSVData]. *)
Record CSVData := mkCSVData {
  headers : list jsstring;
  rows : list (list jsstring)
}.

(** The fields of the selected [File] that the handler reads. *)
Record File := mkFile {
  name : jsstring;
  type : jsstring
}.

(** One entry of the parser's [results.errors]; the handler only counts
    them. *)
Record ParseError := mkParseError {
  err_type : jsstring;
  err_code : jsstring;
  err_message : jsstring;
  err_row : option N
}.

(** The argument of the [complete] callback: with [header: false] the
    parser's [data] is an array of rows, each an array of strings. *)
Record ParseResults := mkParseResults {
  data : list (list jsstring);
  errors : list ParseError
}.

(** The [useState] cells of [Home]. *)
Record State := mkState {
  csvData : option CSVData;
  loading : bool;
  error : option jsstring;
  fileName : jsstring;
  trameServerRunning : bool
}.

(** The values the cells are created with. *)
Definition initial : State :=
  {| csvData := None;
     loading := false;
     error := None;
     fileName := lit "";
     trameServerRunning := false |}.

(** A call of one of the five state setters. *)
Inductive Action :=
| SetCsvData (v : option CSVData)
| SetLoading (v : bool)
| SetError (v : option jsstring)
| SetFileName (v : jsstring)
| SetTrameServerRunning (v : bool).

Definition apply (st : State) (a : Action) : State :=
  match a with
  | SetCsvData v =>
      mkState v (loading st) (error st) (fileName st) (trameServerRunning st)
  | SetLoading v =>
      mkState (csvData st) v (error st) (fileName st) (trameServerRunning st)
  | SetError v =>
      mkState (csvData st) (loading st) v (fileName st) (trameServerRunning st)
  | SetFileName v =>
      mkState (csvData st) (loading st) (error st) v (trameServerRunning st)
  | SetTrameServerRunning v =>
      mkState (csvData st) (loading st) (error st) (fileName st) v
  end.

(** The setter calls of one handler run are applied in order and become
    visible together. *)
Definition commit (acts : list Action) (st : State) : State :=
  fold_left apply acts st.

(** ** CSV ingestion *)

(** The row filter of the source:
    [row.some((cell) => cell.trim() !== "")]. *)
Definition keepRow (row : list jsstring) : bool :=
  existsb (fun cell => strictNeq (trim cell) (lit "")) row.

(** The [complete] callback passed to [Papa.parse]. *)
Definition complete (results : ParseResults) : list Action :=
  if (0 <? length (errors results))%nat then
    [SetError (Some (lit "Error parsing CSV file")); SetLoading false]
  else
    let data := data results in
    if (length data =? 0)%nat then
      [SetError (Some (lit "CSV file is empty")); SetLoading false]
    else
      let headers := nth 0 data [] in
      let rows := filter keepRow (skipn 1 data) in
      [SetCsvData (Some {| headers := headers; rows := rows |});
       SetLoading false].

(** The file-type test of [handleFileUpload]:
    [file.type !== "text/csv" && !file.name.endsWith(".csv")]. *)
Definition rejected (file : File) : bool :=
  strictNeq (type file) (lit "text/csv")
  && negb (endsWith (name file) (lit ".csv")).

(** [handleFileUpload], on [event.target.files?.[0]]: the setter calls made
    before returning, and the file handed to [Papa.parse] when a parse is
    started. *)
Definition handleFileUpload (file : option File) : list Action * option File :=
  match file with
  | None => ([], None)
  | Some file =>
      if rejected file then
        ([SetError (Some (lit "Please upload a valid CSV file"))], None)
      else
        ([SetLoading true; SetError None; SetFileName (name file)],
         Some file)
  end.

(** [clearData]. *)
Definition clearData : list Action :=
  [SetCsvData None; SetFileName (lit ""); SetError None].

(** One upload run to its end: the handler, then the parser's callback with
    [results] when a parse was started. *)
Definition upload (file : option File) (results : ParseResults)
    (st : State) : State :=
  let (acts, job) := handleFileUpload file in
  let st1 := commit acts st in
  match job with
  | Some _ => commit (complete results) st1
  | None => st1
  end.

(** ** 3-D compatibility predicate *)

Definition requiredColumns : list jsstring :=
  [lit "x"; lit "y"; lit "z"; lit "componentId"; lit "MaterialId";
   lit "True_Temp"; lit "Pred_Temp"; lit "Abs_Error"].

Section Has3DColumns.

(** [String.prototype.toLowerCase] is the platform's (Unicode) lower-casing;
    the predicate is embedded over any such function. *)
Variable toLowerCase : jsstring -> jsstring.

(** [has3DColumns]. *)
Definition has3DColumns (data : CSVData) : bool :=
  forallb
    (fun col =>
       existsb
         (fun header => strictEq (toLowerCase header) (toLowerCase col))
         (headers data))
    requiredColumns.

(** Case-insensitive equality of two strings: equal once lower-cased. *)
Definition caseInsensitiveEq (a b : jsstring) : Prop :=
  toLowerCase a = toLowerCase b.

(** [col] occurs among the headers of [data], case-insensitively. *)
Definition Present (col : jsstring) (data : CSVData) : Prop :=
  exists header, In header (headers data) /\ caseInsensitiveEq header col.

End Has3DColumns.

(** ** Liveness probe *)

(** The part of a [fetch] response the probe reads: [response.ok] holds
    exactly for a status in the range 200 to 299. *)
Record Response := mkResponse { status : N }.

Definition ok (response : Response) : bool :=
  ((200 <=? status response) && (status response <=? 299))%N.

(** How the awaited [fetch] settles. *)
Inductive FetchResult :=
| Fulfilled (response : Response)
| Thrown (reason : jsstring).

(** [checkTrameServer], from the point where the awaited [fetch] settles. *)
Definition checkTrameServer (settled : FetchResult) : list Action :=
  match settled with
  | Fulfilled response => [SetTrameServerRunning (ok response)]
  | Thrown _ => [SetTrameServerRunning false]
  end.

(** ** The view as a transition system *)

Inductive Event :=
| FileChosen (file : option File)
| ParseCompleted (results : ParseResults)
| ClearClicked
| ProbeSettled (settled : FetchResult).

Definition step (st : State) (e : Event) : State :=
  match e with
  | FileChosen file => commit (fst (handleFileUpload file)) st
  | ParseCompleted results => commit (complete results) st
  | ClearClicked => commit clearData st
  | ProbeSettled settled => commit (checkTrameServer settled) st
  end.

Definition run (st : State) (events : list Event) : State :=
  fold_left step events st.

(** ** Words of the specification *)

(** A row is all-blank when every cell is the empty string after trimming. *)
Definition AllBlank (row : list jsstring) : Prop :=
  Forall (fun cell => trim cell = lit "") row.

Definition allBlank (row : list jsstring) : bool :=
  forallb (fun cell => strictEq (trim cell) (lit "")) row.

(** The rows with every all-blank row removed. *)
Fixpoint removeAllBlank (rs : list (list jsstring)) : list (list jsstring) :=
  match rs with
  | [] => []
  | row :: rs' =>
      if allBlank row then removeAllBlank rs' else row :: removeAllBlank rs'
  end.

(** [l] keeps some of the elements of [m], in the order they have in [m]. *)
Inductive Subseq {A : Type} : list A -> list A -> Prop :=
| Subseq_nil : Subseq [] []
| Subseq_skip x l m : Subseq l m -> Subseq l (x :: m)
| Subseq_keep x l m : Subseq l m -> Subseq (x :: l) (x :: m).

(** The invariant of the data model: a present Table has no all-blank row. *)
Definition TableClean (st : State) : Prop :=
  match csvData st with
  | None => True
  | Some table =>
      Forall (fun row => ~ Forall WhitespaceOnly row) (rows table)
  end.

(** ** Polling: the mount effect over a timer table *)

Module Timers.

(** The only function the view ever schedules. *)
Inductive Callback := CheckTrameServer.

(** A repeating timer created by [setInterval]. *)
Record Interval := mkInterval {
  id : nat;
  handler : Callback;
  delay : N;
  due : N
}.

(** The page's clock (in the time unit of [setInterval]), its live timers,
    and the times at which [checkTrameServer] was called so far. *)
Record Env := mkEnv {
  now : N;
  intervals : list Interval;
  nextId : nat;
  probes : list N
}.

Definition invoke (cb : Callback) (env : Env) : Env :=
  match cb with
  | CheckTrameServer =>
      mkEnv (now env) (intervals env) (nextId env) (probes env ++ [now env])
  end.

Definition setInterval (cb : Callback) (ms : N) (env : Env) : Env * nat :=
  (mkEnv (now env)
         (intervals env ++ [mkInterval (nextId env) cb ms (now env + ms)])
         (S (nextId env))
         (probes env),
   nextId env).

Definition clearInterval (i : nat) (env : Env) : Env :=
  mkEnv (now env)
        (filter (fun t => negb (id t =? i)%nat) (intervals env))
        (nextId env)
        (probes env).

(** A timer whose time has come runs its callback and is scheduled again
    one [delay] later. *)
Definition fire (env : Env) (t : Interval) : Env :=
  if (due t <=? now env)%N then
    let env' := invoke (handler t) env in
    mkEnv (now env')
          (map (fun u => if (id u =? id t)%nat
                         then mkInterval (id u) (handler u) (delay u)
                                         (now env' + delay u)
                         else u)
               (intervals env'))
          (nextId env') (probes env')
  else env.

(** One unit of time passes; the timers due at the new time fire. *)
Definition tick (env : Env) : Env :=
  let env' := mkEnv (now env + 1) (intervals env) (nextId env) (probes env) in
  fold_left fire (intervals env') env'.

Definition advance (d : N) (env : Env) : Env := N.iter d tick env.

(** The body of [React.useEffect(..., [])]: it runs when the view is
    mounted and returns the clean-up that runs at teardown. *)
Definition effect (env : Env) : Env * (Env -> Env) :=
  let env1 := invoke CheckTrameServer env in
  let (env2, interval) := setInterval CheckTrameServer 5000 env1 in
  (env2, clearInterval interval).

(** The times of the calls expected during [d] time units after a mount at
    [t0]: [t0], [t0 + 5000], [t0 + 10000], ... up to [t0 + d]. *)
Definition schedule (t0 d : N) : list N :=
  map (fun k => t0 + 5000 * N.of_nat k)%N (seq 0 (S (N.to_nat (d / 5000)))).

End Timers.

(** ** Sample inputs *)

Module Samples.

Definition csvFile : File :=
  {| name := lit "data.csv"; type := lit "text/csv" |}.

(** A CSV file the browser gave no MIME type. *)
Definition untypedFile : File :=
  {| name := lit "second.csv"; type := lit "" |}.

Definition textFile : File :=
  {| name := lit "notes.txt"; type := lit "text/plain" |}.

(** The example of the specification: a header, a data row, a blank row. *)
Definition goodResults : ParseResults :=
  {| data := [[lit "a"; lit "b"]; [lit "1"; lit "2"]; [lit ""; lit ""; lit ""]];
     errors := [] |}.

Definition goodTable : CSVData :=
  {| headers := [lit "a"; lit "b"]; rows := [[lit "1"; lit "2"]] |}.

(** Rows together with a parser error. *)
Definition errorResults : ParseResults :=
  {| data := [[lit "a"]; [lit "1"]];
     errors := [ {| err_type := lit "Delimiter";
                    err_code := lit "UndetectableDelimiter";
                    err_message := lit "Unable to auto-detect delimiting character";
                    err_row := None |} ] |}.

Definition emptyResults : ParseResults := {| data := []; errors := [] |}.

(** A state in which an earlier upload is displayed. *)
Definition shown : State := upload (Some csvFile) goodResults initial.

(** Lower-cased spellings of the eight names, with two extra columns. *)
Definition lowerHeaders : CSVData :=
  {| headers :=
       [lit "id"; lit "X"; lit "Y"; lit "Z"; lit "componentid";
        lit "materialid"; lit "true_temp"; lit "pred_temp"; lit "abs_error";
        lit "note"];
     rows := [] |}.

(** A page with no timer, at time 7. *)
Definition page : Timers.Env := Timers.mkEnv 7 [] 0 [].

End Samples.

(** ** Rendering *)

(** JavaScript truthiness of a string, as in [fileName && ...]: any string
    but the empty one. *)
Definition truthy (s : jsstring) : bool :=
  match s with
  | [] => false
  | _ :: _ => true
  end.

(** The "CSV Preview" panel. *)
Record Preview := mkPreview {
  rowCount : nat;
  columnCount : nat;
  headCells : list jsstring;
  bodyRows : list (list jsstring);
  truncationNote : option nat
}.

(** What the JSX returned by [Home] shows, as far as it depends on the
    state cells. *)
Record View := mkView {
  uploadDisabled : bool;
  uploadLabel : jsstring;
  spinner : bool;
  fileChip : option jsstring;
  errorAlert : option jsstring;
  compatibleBanner : bool;
  preview : option Preview;
  statusLabel : jsstring;
  statusColor : jsstring;
  visualizerReady : bool;
  embeddedFrame : bool
}.

(** The panel rendered under [{csvData && (...)}]: the two counts, the
    header cells, [csvData.rows.slice(0, 100)] and, under
    [csvData.rows.length > 100], the note with the total. *)
Definition renderPreview (table : CSVData) : Preview :=
  {| rowCount := length (rows table);
     columnCount := length (headers table);
     headCells := headers table;
     bodyRows := firstn 100 (rows table);
     truncationNote :=
       if (100 <? length (rows table))%nat
       then Some (length (rows table)) else None |}.

Section Render.

Variable toLowerCase : jsstring -> jsstring.

(** The return value of [Home]. *)
Definition render (st : State) : View :=
  {| uploadDisabled := loading st;
     uploadLabel :=
       if loading st then lit "Processing..." else lit "Upload CSV File";
     spinner := loading st;
     fileChip :=
       if truthy (fileName st) && negb (loading st)
       then Some (fileName st) else None;
     errorAlert :=
       match error st with
       | Some message => if truthy message then Some message else None
       | None => None
       end;
     compatibleBanner :=
       match csvData st with
       | Some table => has3DColumns toLowerCase table
       | None => false
       end;
     preview :=
       match csvData st with
       | Some table => Some (renderPreview table)
       | None => None
       end;
     statusLabel :=
       if trameServerRunning st then lit "Running" else lit "Stopped";
     statusColor :=
       if trameServerRunning st then lit "success" else lit "error";
     visualizerReady := trameServerRunning st;
     embeddedFrame := trameServerRunning st |}.

End Render.

(** ** Words for the further properties *)

Definition isProbe (e : Event) : bool :=
  match e with
  | ProbeSettled _ => true
  | _ => false
  end.

(** The messages the handlers ever pass to [setError]. *)
Definition knownMessages : list jsstring :=
  [lit "Please upload a valid CSV file";
   lit "Error parsing CSV file";
   lit "CSV file is empty"].

Definition KnownError (st : State) : Prop :=
  match error st with
  | None => True
  | Some message => In message knownMessages
  end.

(** Two states with the same four ingestion cells. *)
Definition sameIngestion (a b : State) : Prop :=
  csvData a = csvData b /\ loading a = loading b
  /\ error a = error b /\ fileName a = fileName b.

(** The Table a parse result with rows makes. *)
Definition tableOf (first : list jsstring) (rest : list (list jsstring))
  : CSVData :=
  {| headers := first; rows := removeAllBlank rest |}.

(** ** Further timer operations *)

(** The "Refresh status" button: [onClick={checkTrameServer}]. *)
Definition refresh (env : Timers.Env) : Timers.Env :=
  Timers.invoke Timers.CheckTrameServer env.

(** Timer ids in use were handed out by [setInterval]: they lie below the
    next id. *)
Definition WellFormed (env : Timers.Env) : Prop :=
  Forall (fun t => (Timers.id t < Timers.nextId env)%nat) (Timers.intervals env).

(** The view mounted for [d] time units, torn down, and [pause] more time
    units gone by. *)
Definition session (env : Timers.Env) (p : N * N) : Timers.Env :=
  let (d, pause) := p in
  let (mounted, cleanup) := Timers.effect env in
  Timers.advance pause (cleanup (Timers.advance d mounted)).

Definition sessions (env : Timers.Env) (ps : list (N * N)) : Timers.Env :=
  fold_left session ps env.

(** The number of probe calls of one session of [d] time units. *)
Definition callsIn (p : N * N) : nat := S (N.to_nat (fst p / 5000)).

Module MoreSamples.

(** A page where another timer (id 0, every 3000, next at 1000) runs. *)
Definition busyPage : Timers.Env :=
  Timers.mkEnv 10 [Timers.mkInterval 0 Timers.CheckTrameServer 3000 1000] 1 [].

(** One hundred and one data rows. *)
Definition longTable : CSVData :=
  {| headers := [lit "n"]; rows := repeat [lit "1"] 101 |}.

Definition headerOnly : ParseResults :=
  {| data := [[lit "a"; lit "b"]; [lit " "; lit ""]; []]; errors := [] |}.

End MoreSamples.

(** ** Strings *)

Lemma strictEq_spec (a b : jsstring) : strictEq a b = true <-> a = b.
Proof.
  revert b; induction a as [|x a IH]; intros [|y b]; simpl; try easy.
  rewrite andb_true_iff, N.eqb_eq, IH.
  split; [intros [-> ->]; reflexivity | intros [= -> ->]; auto].
Qed.

Lemma strictEq_refl (a : jsstring) : strictEq a a = true.
Proof. apply strictEq_spec; reflexivity. Qed.

Lemma strictNeq_spec (a b : jsstring) : strictNeq a b = true <-> a <> b.
Proof.
  unfold strictNeq. rewrite negb_true_iff.
  destruct (strictEq a b) eqn:E.
  - apply strictEq_spec in E. split; [discriminate | contradiction].
  - split; [intros _ H | reflexivity].
    apply strictEq_spec in H. congruence.
Qed.

Lemma dropWhile_nil_iff (p : N -> bool) (s : jsstring) :
  dropWhile p s = [] <-> Forall (fun c => p c = true) s.
Proof.
  induction s as [|c s IH]; simpl.
  - split; auto.
  - destruct (p c) eqn:E.
    + rewrite IH. split; [intros H; constructor; assumption |].
      intros H; inversion H; assumption.
    + split; [discriminate |].
      intros H; inversion H; congruence.
Qed.

Lemma dropWhile_suffix (p : N -> bool) (s : jsstring) :
  exists pre, s = pre ++ dropWhile p s /\ Forall (fun c => p c = true) pre.
Proof.
  induction s as [|c s [pre [E F]]]; simpl.
  - exists []. split; [reflexivity | constructor].
  - destruct (p c) eqn:Ec.
    + exists (c :: pre). split; [simpl; congruence | constructor; assumption].
    + exists []. split; [reflexivity | constructor].
Qed.

(** [trim] yields the empty string exactly on white-space-only strings. *)
Lemma trim_empty_iff (s : jsstring) : trim s = [] <-> WhitespaceOnly s.
Proof.
  unfold trim, trimEnd, trimStart, WhitespaceOnly.
  split.
  - intros H.
    assert (H' : dropWhile isWhiteSpace (rev (dropWhile isWhiteSpace s)) = []).
    { apply (f_equal (@rev N)) in H. rewrite rev_involutive in H. exact H. }
    apply dropWhile_nil_iff in H'.
    destruct (dropWhile_suffix isWhiteSpace s) as [pre [E F]].
    rewrite E. apply Forall_app. split; [exact F |].
    apply Forall_rev in H'. rewrite rev_involutive in H'. exact H'.
  - intros H. apply dropWhile_nil_iff in H. rewrite H. reflexivity.
Qed.

Lemma endsWith_spec (s search : jsstring) :
  endsWith s search = true <-> exists pre, s = pre ++ search.
Proof.
  unfold endsWith. split.
  - destruct (Nat.leb_spec (length search) (length s)) as [L|L]; [|discriminate].
    intros H. apply strictEq_spec in H.
    exists (firstn (length s - length search) s).
    pose proof (firstn_skipn (length s - length search) s) as E.
    rewrite H in E. symmetry. exact E.
  - intros [pre ->]. rewrite length_app.
    destruct (Nat.leb_spec (length search) (length pre + length search)); [|lia].
    replace (length pre + length search - length search) with (length pre + 0) by lia.
    rewrite skipn_app, Nat.add_0_r, skipn_all. simpl.
    replace (length pre - length pre) with 0 by lia. simpl.
    apply strictEq_refl.
Qed.

Lemma string_examples :
  trim (lit "  a b  ") = lit "a b"
  /\ trim ([0x09; 0xA0; 0x2003; 0xFEFF; 0x0A]%N) = lit ""
  /\ isWhiteSpace 0x200B = false
  /\ endsWith (lit "data.csv") (lit ".csv") = true
  /\ endsWith (lit "DATA.CSV") (lit ".csv") = false
  /\ endsWith (lit "csv") (lit ".csv") = false
  /\ asciiToLowerCase (lit "True_Temp") = lit "true_temp".
Proof. repeat split. Qed.

(** Two strings have the same image under a code-unit-wise mapping (such as
    [asciiToLowerCase]) exactly when they have the same length and their
    code units have the same image position by position. *)
Lemma map_eq_pointwise (g : N -> N) (a b : jsstring) :
  map g a = map g b <-> Forall2 (fun x y => g x = g y) a b.
Proof.
  revert b. induction a as [|x a IH]; intros [|y b]; simpl.
  - split; auto.
  - split; [discriminate | intros H; inversion H].
  - split; [discriminate | intros H; inversion H].
  - split.
    + intros [= E1 E2]. constructor; [exact E1 | apply IH, E2].
    + intros H. inversion H; subst. f_equal; [assumption | apply IH; assumption].
Qed.

(** ** The row filter *)

Lemma keepRow_allBlank (row : list jsstring) : keepRow row = negb (allBlank row).
Proof.
  unfold keepRow, allBlank, strictNeq.
  induction row as [|cell row IH]; simpl; [reflexivity |].
  rewrite IH, negb_andb. reflexivity.
Qed.

Lemma allBlank_spec (row : list jsstring) : allBlank row = true <-> AllBlank row.
Proof.
  unfold allBlank, AllBlank. rewrite forallb_forall, Forall_forall.
  split; intros H cell Hin; apply strictEq_spec, H, Hin.
Qed.

Lemma AllBlank_whitespace (row : list jsstring) :
  AllBlank row <-> Forall WhitespaceOnly row.
Proof.
  unfold AllBlank. rewrite !Forall_forall.
  split; intros H cell Hin; apply trim_empty_iff, H, Hin.
Qed.

Lemma filter_keepRow (rs : list (list jsstring)) :
  filter keepRow rs = removeAllBlank rs.
Proof.
  induction rs as [|row rs IH]; simpl; [reflexivity |].
  rewrite keepRow_allBlank, IH. destruct (allBlank row); reflexivity.
Qed.

Lemma removeAllBlank_Subseq (rs : list (list jsstring)) :
  Subseq (removeAllBlank rs) rs.
Proof.
  induction rs as [|row rs IH]; simpl; [constructor |].
  destruct (allBlank row); constructor; exact IH.
Qed.

Lemma removeAllBlank_In (rs : list (list jsstring)) (row : list jsstring) :
  In row (removeAllBlank rs) <-> In row rs /\ ~ AllBlank row.
Proof.
  rewrite <- filter_keepRow, filter_In, keepRow_allBlank, negb_true_iff.
  rewrite <- allBlank_spec. destruct (allBlank row); intuition congruence.
Qed.

Lemma removeAllBlank_clean (rs : list (list jsstring)) :
  Forall (fun row => ~ Forall WhitespaceOnly row) (removeAllBlank rs).
Proof.
  apply Forall_forall. intros row Hin.
  apply removeAllBlank_In in Hin. rewrite <- AllBlank_whitespace. tauto.
Qed.

(** The callback, branch by branch. *)

Lemma complete_errors (r : ParseResults) :
  errors r <> [] ->
  complete r = [SetError (Some (lit "Error parsing CSV file")); SetLoading false].
Proof.
  unfold complete. destruct (errors r); [congruence | reflexivity].
Qed.

Lemma complete_empty (r : ParseResults) :
  errors r = [] -> data r = [] ->
  complete r = [SetError (Some (lit "CSV file is empty")); SetLoading false].
Proof. unfold complete. intros -> ->. reflexivity. Qed.

Lemma complete_table (r : ParseResults) first rest :
  errors r = [] -> data r = first :: rest ->
  complete r =
    [SetCsvData (Some {| headers := first; rows := removeAllBlank rest |});
     SetLoading false].
Proof.
  unfold complete. intros -> ->. simpl.
  rewrite filter_keepRow. reflexivity.
Qed.

Lemma handleFileUpload_accept (f : File) :
  rejected f = false ->
  handleFileUpload (Some f) =
    ([SetLoading true; SetError None; SetFileName (name f)], Some f).
Proof. unfold handleFileUpload. intros ->. reflexivity. Qed.

Lemma handleFileUpload_reject (f : File) :
  rejected f = true ->
  handleFileUpload (Some f) =
    ([SetError (Some (lit "Please upload a valid CSV file"))], None).
Proof. unfold handleFileUpload. intros ->. reflexivity. Qed.

Lemma rejected_true_iff (f : File) :
  rejected f = true <->
  type f <> lit "text/csv" /\ ~ (exists pre, name f = pre ++ lit ".csv").
Proof.
  unfold rejected.
  rewrite andb_true_iff, strictNeq_spec, negb_true_iff, <- endsWith_spec.
  destruct (endsWith (name f) (lit ".csv")); intuition congruence.
Qed.

Lemma rejected_false_iff (f : File) :
  rejected f = false <->
  type f = lit "text/csv" \/ (exists pre, name f = pre ++ lit ".csv").
Proof.
  unfold rejected.
  rewrite andb_false_iff, negb_false_iff, endsWith_spec.
  unfold strictNeq. rewrite negb_false_iff, strictEq_spec. tauto.
Qed.

Lemma upload_accept (f : File) (r : ParseResults) (st : State) :
  rejected f = false ->
  upload (Some f) r st =
    step (step st (FileChosen (Some f))) (ParseCompleted r).
Proof.
  intros H. unfold upload, step.
  rewrite (handleFileUpload_accept f H). reflexivity.
Qed.

Lemma data_cons (r : ParseResults) :
  data r <> [] -> exists first rest, data r = first :: rest.
Proof. destruct (data r) as [|first rest]; [congruence | eauto]. Qed.

(** ** Ingestion *)

(** C1, as amended: for every parse result that reports no parser error and
    has at least one row, the completion (and so the whole upload of an
    accepted file) sets a Table whose headers are the first parsed row,
    verbatim, and whose rows are the later rows with every all-blank row
    removed, in their original relative order. *)
Theorem ingest_sets_headers_and_rows
    (f : File) (r : ParseResults) (st : State)
    (first : list jsstring) (rest : list (list jsstring)) :
  rejected f = false ->
  errors r = [] ->
  data r = first :: rest ->
  let table := {| headers := first; rows := removeAllBlank rest |} in
  csvData (step st (ParseCompleted r)) = Some table
  /\ csvData (upload (Some f) r st) = Some table
  /\ Subseq (rows table) rest
  /\ (forall row, In row (rows table) <-> In row rest /\ ~ AllBlank row).
Proof.
  intros Hf He Hd table. split; [| split; [| split]].
  - unfold step. rewrite (complete_table r He Hd). reflexivity.
  - rewrite (upload_accept f r st Hf). unfold step at 1.
    rewrite (complete_table r He Hd). reflexivity.
  - apply removeAllBlank_Subseq.
  - intros row. apply removeAllBlank_In.
Qed.

Lemma ingest_sets_headers_and_rows_witness :
  csvData (upload (Some Samples.csvFile) Samples.goodResults initial)
  = Some Samples.goodTable.
Proof.
  exact (proj1 (proj2
    (ingest_sets_headers_and_rows Samples.csvFile Samples.goodResults initial
       eq_refl eq_refl eq_refl))).
Defined.

(** C1, as stated, fails: a parse result with rows and a parser error sets
    no Table. *)
Lemma rows_with_parser_error_set_no_table :
  data Samples.errorResults = [lit "a"] :: [[lit "1"]]
  /\ rejected Samples.csvFile = false
  /\ csvData (upload (Some Samples.csvFile) Samples.errorResults initial)
     <> Some {| headers := [lit "a"]; rows := removeAllBlank [[lit "1"]] |}
  /\ csvData (upload (Some Samples.csvFile) Samples.errorResults initial) = None
  /\ error (upload (Some Samples.csvFile) Samples.errorResults initial)
     = Some (lit "Error parsing CSV file").
Proof. repeat split. discriminate. Qed.

(** C3: a file whose type is not "text/csv" and whose name does not end
    with ".csv" gets the validation error, starts no parse and leaves the
    Table as it was; a file with that type or that suffix passes the check
    (a parse is started and the error is cleared). *)
Theorem file_type_validation (f : File) (st : State) :
  (type f <> lit "text/csv" /\ ~ (exists pre, name f = pre ++ lit ".csv") ->
   snd (handleFileUpload (Some f)) = None
   /\ error (step st (FileChosen (Some f)))
      = Some (lit "Please upload a valid CSV file")
   /\ csvData (step st (FileChosen (Some f))) = csvData st)
  /\
  (type f = lit "text/csv" \/ (exists pre, name f = pre ++ lit ".csv") ->
   snd (handleFileUpload (Some f)) = Some f
   /\ error (step st (FileChosen (Some f))) = None).
Proof.
  split; intros H.
  - apply rejected_true_iff in H. unfold step.
    rewrite (handleFileUpload_reject f H). repeat split.
  - apply rejected_false_iff in H. unfold step.
    rewrite (handleFileUpload_accept f H). repeat split.
Qed.

Lemma file_type_validation_witness :
  (snd (handleFileUpload (Some Samples.textFile)) = None
   /\ error (step Samples.shown (FileChosen (Some Samples.textFile)))
      = Some (lit "Please upload a valid CSV file")
   /\ csvData (step Samples.shown (FileChosen (Some Samples.textFile)))
      = csvData Samples.shown)
  /\
  (snd (handleFileUpload (Some Samples.untypedFile)) = Some Samples.untypedFile
   /\ error (step Samples.shown (FileChosen (Some Samples.untypedFile))) = None).
Proof.
  split.
  - apply (proj1 (file_type_validation Samples.textFile Samples.shown)).
    split; [discriminate |].
    intros [pre E].
    assert (X : endsWith (name Samples.textFile) (lit ".csv") = true)
      by (apply endsWith_spec; exists pre; exact E).
    vm_compute in X. discriminate X.
  - apply (proj2 (file_type_validation Samples.untypedFile Samples.shown)).
    right. exists (lit "second"). reflexivity.
Defined.

(** C4: at a parse completion, parser errors give exactly the message
    "Error parsing CSV file" and no Table is set; no errors and zero rows
    give exactly "CSV file is empty" and no Table is set; in the remaining
    case, and only there, a Table is set and no error is: the completion
    leaves the error cell alone, and the upload as a whole ends with none. *)
Theorem parse_completion_outcomes (r : ParseResults) (st : State) :
  (errors r <> [] ->
   complete r =
     [SetError (Some (lit "Error parsing CSV file")); SetLoading false]
   /\ error (step st (ParseCompleted r)) = Some (lit "Error parsing CSV file")
   /\ csvData (step st (ParseCompleted r)) = csvData st)
  /\
  (errors r = [] -> data r = [] ->
   complete r = [SetError (Some (lit "CSV file is empty")); SetLoading false]
   /\ error (step st (ParseCompleted r)) = Some (lit "CSV file is empty")
   /\ csvData (step st (ParseCompleted r)) = csvData st)
  /\
  (errors r = [] -> data r <> [] ->
   exists table,
     complete r = [SetCsvData (Some table); SetLoading false]
     /\ csvData (step st (ParseCompleted r)) = Some table
     /\ error (step st (ParseCompleted r)) = error st
     /\ forall f, rejected f = false ->
          csvData (upload (Some f) r st) = Some table
          /\ error (upload (Some f) r st) = None).
Proof.
  split; [| split].
  - intros He. unfold step. rewrite (complete_errors r He). repeat split.
  - intros He Hd. unfold step. rewrite (complete_empty r He Hd). repeat split.
  - intros He Hd. destruct (data_cons r Hd) as [first [rest Hd']].
    exists {| headers := first; rows := removeAllBlank rest |}.
    unfold step. rewrite (complete_table r He Hd').
    split; [reflexivity | split; [reflexivity | split; [reflexivity |]]].
    intros f Hf. rewrite (upload_accept f r st Hf). unfold step.
    rewrite (complete_table r He Hd'), (handleFileUpload_accept f Hf).
    split; reflexivity.
Qed.

Lemma parse_completion_outcomes_witness :
  (error (step Samples.shown (ParseCompleted Samples.errorResults))
   = Some (lit "Error parsing CSV file")
   /\ csvData (step Samples.shown (ParseCompleted Samples.errorResults))
      = Some Samples.goodTable)
  /\
  (error (step Samples.shown (ParseCompleted Samples.emptyResults))
   = Some (lit "CSV file is empty")
   /\ csvData (step Samples.shown (ParseCompleted Samples.emptyResults))
      = Some Samples.goodTable)
  /\
  (exists table,
     csvData (step initial (ParseCompleted Samples.goodResults)) = Some table
     /\ error (upload (Some Samples.csvFile) Samples.goodResults initial) = None).
Proof.
  split; [| split].
  - destruct (parse_completion_outcomes Samples.errorResults Samples.shown)
      as [H _].
    destruct H as [_ [H1 H2]]; [discriminate |]. split; [exact H1 | exact H2].
  - destruct (parse_completion_outcomes Samples.emptyResults Samples.shown)
      as [_ [H _]].
    destruct H as [_ [H1 H2]]; [reflexivity | reflexivity |].
    split; [exact H1 | exact H2].
  - destruct (parse_completion_outcomes Samples.goodResults initial)
      as [_ [_ H]].
    destruct H as [table [_ [H1 [_ H2]]]]; [reflexivity | discriminate |].
    exists table. split; [exact H1 |].
    exact (proj2 (H2 Samples.csvFile eq_refl)).
Defined.

(** C7: clearing, from any state, makes the Table absent, the file name
    empty and the error absent in one step, and touches nothing else. *)
Theorem clear_resets_together (st : State) :
  clearData = [SetCsvData None; SetFileName (lit ""); SetError None]
  /\ step st ClearClicked
     = {| csvData := None;
          loading := loading st;
          error := None;
          fileName := lit "";
          trameServerRunning := trameServerRunning st |}
  /\ csvData (step st ClearClicked) = None
  /\ fileName (step st ClearClicked) = lit ""
  /\ error (step st ClearClicked) = None.
Proof. repeat split. Qed.

(** The invariant, operation by operation. *)

Lemma TableClean_apply (st : State) (a : Action) :
  TableClean st ->
  (forall table, a = SetCsvData (Some table) ->
     Forall (fun row => ~ Forall WhitespaceOnly row) (rows table)) ->
  TableClean (apply st a).
Proof.
  unfold TableClean. intros Hst Ha.
  destruct a as [[table|] | | | |]; simpl; auto.
Qed.

Lemma TableClean_complete (r : ParseResults) (st : State) :
  TableClean st -> TableClean (commit (complete r) st).
Proof.
  intros Hst. destruct (errors r) as [|e es] eqn:He.
  - destruct (data r) as [|first rest] eqn:Hd.
    + rewrite (complete_empty r He Hd). exact Hst.
    + rewrite (complete_table r He Hd). unfold TableClean. simpl.
      apply removeAllBlank_clean.
  - rewrite complete_errors by congruence. exact Hst.
Qed.

Lemma TableClean_step (st : State) (e : Event) :
  TableClean st -> TableClean (step st e).
Proof.
  intros Hst. destruct e as [[f|] | r | | settled]; simpl.
  - unfold handleFileUpload. destruct (rejected f); exact Hst.
  - exact Hst.
  - apply TableClean_complete, Hst.
  - exact I.
  - destruct settled; exact Hst.
Qed.

(** C8: the initial state has no Table; every operation (choosing a file,
    a parse completion, clearing, a probe result) keeps the property that a
    present Table has no row whose cells are all empty or white space; so
    every state reached by any sequence of them has it. *)
Theorem rows_never_all_blank :
  TableClean initial
  /\ (forall st e, TableClean st -> TableClean (step st e))
  /\ (forall st events, TableClean st -> TableClean (run st events))
  /\ (forall events, TableClean (run initial events)).
Proof.
  assert (Hrun : forall events st, TableClean st -> TableClean (run st events)).
  { induction events as [|e events IH]; intros st Hst; simpl; [exact Hst |].
    apply IH, TableClean_step, Hst. }
  split; [exact I | split; [exact TableClean_step | split]].
  - intros st events. apply Hrun.
  - intros events. apply Hrun. exact I.
Qed.

Lemma rows_never_all_blank_witness :
  TableClean
    (run initial
       [FileChosen (Some Samples.csvFile); ParseCompleted Samples.goodResults;
        FileChosen (Some Samples.textFile); ClearClicked;
        FileChosen (Some Samples.untypedFile);
        ParseCompleted Samples.goodResults])
  /\ csvData
       (run initial
          [FileChosen (Some Samples.csvFile); ParseCompleted Samples.goodResults;
           FileChosen (Some Samples.textFile); ClearClicked;
           FileChosen (Some Samples.untypedFile);
           ParseCompleted Samples.goodResults])
     = Some Samples.goodTable.
Proof.
  split; [| reflexivity].
  destruct rows_never_all_blank as [H0 [_ [H _]]].
  apply (H initial). exact H0.
Defined.

(** C9: when a file passes the file-type check and its parse then fails
    (parser errors, or zero rows), the file name cell already holds the
    failed file's name when the handler returns, before the parse completes;
    the completion reports the failure and leaves both the name and the
    earlier Table in place.  So a name and a Table of two different uploads
    can be displayed together. *)
Theorem failed_upload_renames_but_keeps_table :
  (forall (f : File) (r : ParseResults) (st : State),
     rejected f = false ->
     errors r <> [] \/ data r = [] ->
     let st1 := step st (FileChosen (Some f)) in
     let st2 := step st1 (ParseCompleted r) in
     fileName st1 = name f
     /\ csvData st1 = csvData st
     /\ st2 = upload (Some f) r st
     /\ fileName st2 = name f
     /\ csvData st2 = csvData st
     /\ error st2 <> None)
  /\
  (exists f1 r1 f2 r2,
     name f1 <> name f2
     /\ csvData (upload (Some f1) r1 initial) <> None
     /\ fileName (upload (Some f1) r1 initial) = name f1
     /\ csvData (upload (Some f2) r2 (upload (Some f1) r1 initial))
        = csvData (upload (Some f1) r1 initial)
     /\ fileName (upload (Some f2) r2 (upload (Some f1) r1 initial)) = name f2).
Proof.
  split.
  - intros f r st Hf Hfail st1 st2. subst st2 st1.
    rewrite (upload_accept f r st Hf). unfold step.
    rewrite (handleFileUpload_accept f Hf).
    destruct (errors r) as [|e es] eqn:He.
    + destruct Hfail as [Hfail | Hd]; [congruence |].
      rewrite (complete_empty r He Hd). simpl. repeat split. discriminate.
    + rewrite complete_errors by congruence. simpl. repeat split. discriminate.
  - exists Samples.csvFile, Samples.goodResults,
           Samples.untypedFile, Samples.errorResults.
    repeat split; discriminate.
Qed.

Lemma failed_upload_renames_but_keeps_table_witness :
  fileName (step Samples.shown (FileChosen (Some Samples.untypedFile)))
  = lit "second.csv"
  /\ fileName (upload (Some Samples.untypedFile) Samples.emptyResults Samples.shown)
     = lit "second.csv"
  /\ csvData (upload (Some Samples.untypedFile) Samples.emptyResults Samples.shown)
     = Some Samples.goodTable.
Proof.
  destruct failed_upload_renames_but_keeps_table as [H _].
  destruct (H Samples.untypedFile Samples.emptyResults Samples.shown eq_refl
              (or_intror eq_refl))
    as [H1 [_ [H3 [H4 H5]]]].
  split; [exact H1 |].
  rewrite <- H3. split; [exact H4 | exact (proj1 H5)].
Defined.

(** C10: an upload rejected by the file-type check calls [setError] and
    nothing else: the Table, the file name, the loading flag (and the
    reachable flag) keep their values, and no parse is started. *)
Theorem rejected_upload_changes_only_error (f : File) (st : State) :
  rejected f = true ->
  handleFileUpload (Some f)
  = ([SetError (Some (lit "Please upload a valid CSV file"))], None)
  /\ step st (FileChosen (Some f))
     = {| csvData := csvData st;
          loading := loading st;
          error := Some (lit "Please upload a valid CSV file");
          fileName := fileName st;
          trameServerRunning := trameServerRunning st |}
  /\ csvData (step st (FileChosen (Some f))) = csvData st
  /\ fileName (step st (FileChosen (Some f))) = fileName st
  /\ loading (step st (FileChosen (Some f))) = loading st.
Proof.
  intros H. unfold step. rewrite (handleFileUpload_reject f H). repeat split.
Qed.

Lemma rejected_upload_changes_only_error_witness :
  csvData (step Samples.shown (FileChosen (Some Samples.textFile)))
  = Some Samples.goodTable
  /\ fileName (step Samples.shown (FileChosen (Some Samples.textFile)))
     = lit "data.csv"
  /\ loading (step Samples.shown (FileChosen (Some Samples.textFile))) = false.
Proof.
  destruct (rejected_upload_changes_only_error Samples.textFile Samples.shown
              eq_refl) as [_ [_ [H1 [H2 H3]]]].
  split; [exact H1 | split; [exact H2 | exact H3]].
Defined.

(** ** 3-D compatibility *)

Section Has3DColumnsFacts.

Variable toLowerCase : jsstring -> jsstring.

Lemma header_match_iff (col : jsstring) (data : CSVData) :
  existsb (fun header => strictEq (toLowerCase header) (toLowerCase col))
          (headers data) = true
  <-> Present toLowerCase col data.
Proof.
  unfold Present, caseInsensitiveEq. rewrite existsb_exists.
  split; intros [header [Hin E]]; exists header; split; try exact Hin;
    apply strictEq_spec; exact E.
Qed.

Lemma has3DColumns_all (data : CSVData) :
  has3DColumns toLowerCase data = true
  <-> forall col, In col requiredColumns -> Present toLowerCase col data.
Proof.
  unfold has3DColumns. rewrite forallb_forall.
  split; intros H col Hin; apply header_match_iff, H, Hin.
Qed.

(** C2: the predicate is true exactly when each of the eight names occurs
    among the headers case-insensitively, and false exactly when one of
    them does not; a Table whose headers cover, up to case, those of a
    compatible Table (more headers, another order, another casing) is
    compatible too. *)
Theorem has3DColumns_iff_all_present (data : CSVData) :
  (has3DColumns toLowerCase data = true
   <-> Present toLowerCase (lit "x") data
       /\ Present toLowerCase (lit "y") data
       /\ Present toLowerCase (lit "z") data
       /\ Present toLowerCase (lit "componentId") data
       /\ Present toLowerCase (lit "MaterialId") data
       /\ Present toLowerCase (lit "True_Temp") data
       /\ Present toLowerCase (lit "Pred_Temp") data
       /\ Present toLowerCase (lit "Abs_Error") data)
  /\
  (has3DColumns toLowerCase data = false
   <-> exists col, In col requiredColumns /\ ~ Present toLowerCase col data)
  /\
  (forall data' : CSVData,
     (forall header, In header (headers data) ->
        exists header', In header' (headers data')
                        /\ caseInsensitiveEq toLowerCase header' header) ->
     has3DColumns toLowerCase data = true ->
     has3DColumns toLowerCase data' = true).
Proof.
  split; [| split].
  - rewrite has3DColumns_all. unfold requiredColumns. split.
    + intros H. repeat split; apply H; simpl; tauto.
    + intros H col Hin. simpl in Hin.
      decompose [and] H. decompose [or] Hin; subst; tauto.
  - unfold has3DColumns.
    rewrite <- not_true_iff_false, forallb_forall. split.
    + intros H.
      induction requiredColumns as [|col cols IH].
      * exfalso. apply H. intros col [].
      * destruct (existsb
                    (fun header =>
                       strictEq (toLowerCase header) (toLowerCase col))
                    (headers data)) eqn:E.
        -- destruct IH as [col' [Hin Hn]].
           ++ intros Hall. apply H. intros c [<- | Hc]; [exact E | auto].
           ++ exists col'. split; [right; exact Hin | exact Hn].
        -- exists col. split; [left; reflexivity |].
           rewrite <- header_match_iff. congruence.
    + intros [col [Hin Hn]] Hall. apply Hn, header_match_iff, Hall, Hin.
  - intros data' Hcover H. rewrite has3DColumns_all in *.
    intros col Hin. destruct (H col Hin) as [header [Hh E]].
    destruct (Hcover header Hh) as [header' [Hh' E']].
    exists header'. split; [exact Hh' |].
    unfold caseInsensitiveEq in *. congruence.
Qed.

End Has3DColumnsFacts.

Lemma has3DColumns_iff_all_present_witness :
  has3DColumns asciiToLowerCase Samples.lowerHeaders = true
  /\ has3DColumns asciiToLowerCase
       {| headers := rev (headers Samples.lowerHeaders); rows := [] |} = true.
Proof.
  assert (H : has3DColumns asciiToLowerCase Samples.lowerHeaders = true)
    by reflexivity.
  split; [exact H |].
  destruct (has3DColumns_iff_all_present asciiToLowerCase Samples.lowerHeaders)
    as [_ [_ Hcover]].
  apply Hcover; [| exact H].
  intros header Hin. exists header. split; [| reflexivity].
  change (In header (rev (headers Samples.lowerHeaders))).
  apply (proj1 (in_rev _ _)). exact Hin.
Defined.

(** The example of the specification, and a Table that lacks one name. *)
Lemma has3DColumns_examples :
  has3DColumns asciiToLowerCase
    {| headers := [lit "X"; lit "Y"; lit "Z"; lit "componentid";
                   lit "materialid"; lit "true_temp"; lit "pred_temp";
                   lit "abs_error"];
       rows := [] |} = true
  /\ has3DColumns asciiToLowerCase
       {| headers := [lit "x"; lit "y"; lit "componentId"; lit "MaterialId";
                      lit "True_Temp"; lit "Pred_Temp"; lit "Abs_Error"];
          rows := [] |} = false.
Proof. split; reflexivity. Qed.

(** ** Liveness probe *)

Lemma ok_iff (response : Response) :
  ok response = true <-> (200 <= status response <= 299)%N.
Proof.
  unfold ok. rewrite andb_true_iff, !N.leb_le. tauto.
Qed.

(** C5: when the HEAD request resolves with a success status (200 to 299)
    the reachable flag becomes true; when it resolves with any other status
    the flag becomes false; when the request throws, whatever the reason,
    the flag becomes false.  No other cell changes. *)
Theorem probe_sets_reachable_flag (st : State) :
  (forall response, (200 <= status response <= 299)%N ->
     trameServerRunning (step st (ProbeSettled (Fulfilled response))) = true)
  /\
  (forall response, ~ (200 <= status response <= 299)%N ->
     trameServerRunning (step st (ProbeSettled (Fulfilled response))) = false)
  /\
  (forall reason,
     trameServerRunning (step st (ProbeSettled (Thrown reason))) = false)
  /\
  (forall settled,
     let st' := step st (ProbeSettled settled) in
     csvData st' = csvData st /\ loading st' = loading st
     /\ error st' = error st /\ fileName st' = fileName st).
Proof.
  split; [| split; [| split]].
  - intros response H. simpl. apply ok_iff, H.
  - intros response H. simpl. apply not_true_iff_false.
    intros E. apply H, ok_iff, E.
  - intros reason. reflexivity.
  - intros [response | reason]; repeat split.
Qed.

Lemma probe_sets_reachable_flag_witness :
  trameServerRunning
    (step initial (ProbeSettled (Fulfilled {| status := 204 |}))) = true
  /\ trameServerRunning
       (step (step initial (ProbeSettled (Fulfilled {| status := 204 |})))
             (ProbeSettled (Fulfilled {| status := 404 |}))) = false.
Proof.
  split.
  - apply (proj1 (probe_sets_reachable_flag initial) {| status := 204 |}).
    simpl. lia.
  - apply (proj1 (proj2 (probe_sets_reachable_flag _)) {| status := 404 |}).
    simpl. lia.
Defined.

(** ** Polling *)

Section Polling.

Import Timers.

Local Ltac Zify.zify_post_hook ::= Z.to_euclidean_division_equations.

Lemma tick_single (t : N) (i : nat) (ms at_ : N) (k : nat) (ps : list N) :
  tick (mkEnv t [mkInterval i CheckTrameServer ms at_] k ps) =
  if (at_ <=? t + 1)%N
  then mkEnv (t + 1) [mkInterval i CheckTrameServer ms (t + 1 + ms)] k
             (ps ++ [(t + 1)%N])
  else mkEnv (t + 1) [mkInterval i CheckTrameServer ms at_] k ps.
Proof.
  unfold tick, fire. cbn -[N.add N.leb].
  destruct (at_ <=? t + 1)%N; [| reflexivity].
  cbn -[N.add]. rewrite Nat.eqb_refl. reflexivity.
Qed.

Lemma schedule_same (t0 d : N) :
  (d / 5000 = (d + 1) / 5000)%N -> schedule t0 (d + 1) = schedule t0 d.
Proof. unfold schedule. intros <-. reflexivity. Qed.

Lemma schedule_next (t0 d : N) :
  ((d + 1) / 5000 = d / 5000 + 1)%N ->
  schedule t0 (d + 1) = schedule t0 d ++ [(t0 + 5000 * ((d + 1) / 5000))%N].
Proof.
  unfold schedule. intros ->.
  replace (N.to_nat (d / 5000 + 1)) with (S (N.to_nat (d / 5000))) by lia.
  rewrite (seq_S (S (N.to_nat (d / 5000))) 0), map_app. cbn [map Nat.add].
  f_equal. f_equal. lia.
Qed.

Lemma schedule_In (t0 d t : N) :
  In t (schedule t0 d) <-> exists k, (t = t0 + 5000 * k /\ 5000 * k <= d)%N.
Proof.
  unfold schedule. rewrite in_map_iff. split.
  - intros [k [<- Hk]]. apply in_seq in Hk.
    exists (N.of_nat k). split; [reflexivity | lia].
  - intros [k [-> Hk]]. exists (N.to_nat k).
    split; [f_equal; lia | apply in_seq; lia].
Qed.

Lemma single_timer_env_eq (t t' : N) (i : nat) (ms a a' : N) (k : nat)
    (ps ps' : list N) :
  t = t' -> a = a' -> ps = ps' ->
  mkEnv t [mkInterval i CheckTrameServer ms a] k ps
  = mkEnv t' [mkInterval i CheckTrameServer ms a'] k ps'.
Proof. intros -> -> ->. reflexivity. Qed.

(** A mounted view, [d] time units after the mount. *)
Lemma advance_mounted (env : Env) (d : N) :
  intervals env = [] ->
  advance d (fst (effect env)) =
  mkEnv (now env + d)
        [mkInterval (nextId env) CheckTrameServer 5000
                    (now env + 5000 * (d / 5000 + 1))]
        (S (nextId env))
        (probes env ++ schedule (now env) d).
Proof.
  intros Hno. unfold advance.
  induction d as [|d IH] using N.peano_ind.
  - destruct env as [t ts k ps]. simpl in Hno. subst ts.
    cbn -[N.add N.mul N.div schedule].
    apply single_timer_env_eq; [lia | reflexivity |].
    unfold schedule. cbn -[N.add N.mul]. f_equal. f_equal. lia.
  - rewrite N.iter_succ, IH, tick_single.
    rewrite <- N.add_1_r.
    destruct (N.leb_spec (now env + 5000 * (d / 5000 + 1)) (now env + d + 1))
      as [E | E].
    + assert (Hq : ((d + 1) / 5000 = d / 5000 + 1)%N) by lia.
      rewrite (schedule_next _ _ Hq), Hq, app_assoc.
      apply single_timer_env_eq; [lia | lia |].
      f_equal. f_equal. lia.
    + assert (Hq : (d / 5000 = (d + 1) / 5000)%N) by lia.
      rewrite (schedule_same _ _ Hq), <- Hq.
      apply single_timer_env_eq; [lia | reflexivity | reflexivity].
Qed.

Lemma tick_no_timers (t : N) (k : nat) (ps : list N) :
  tick (mkEnv t [] k ps) = mkEnv (t + 1) [] k ps.
Proof. reflexivity. Qed.

Lemma advance_no_timers (env : Env) (d : N) :
  intervals env = [] ->
  advance d env = mkEnv (now env + d) [] (nextId env) (probes env).
Proof.
  intros Hno. destruct env as [t ts k ps]. simpl in Hno. subst ts.
  unfold advance. induction d as [|d IH] using N.peano_ind.
  - cbn -[N.add]. f_equal. lia.
  - rewrite N.iter_succ, IH, tick_no_timers. cbn -[N.add]. f_equal. lia.
Qed.

Lemma cleanup_mounted (env : Env) (d : N) :
  intervals env = [] ->
  snd (effect env) (advance d (fst (effect env))) =
  mkEnv (now env + d) [] (S (nextId env)) (probes env ++ schedule (now env) d).
Proof.
  intros Hno. rewrite (advance_mounted env d Hno).
  unfold effect, setInterval, clearInterval. cbn -[N.add N.mul N.div schedule].
  rewrite Nat.eqb_refl. reflexivity.
Qed.

(** C6: mounting the view calls the probe once, at once, and starts one
    repeating timer of 5000 time units; while the view stays mounted the
    probe is called again every 5000 time units (at the mount time plus
    5000, 10000, ...) and at no other time; the clean-up at teardown removes
    the timer, and no probe is called after it however long time runs. *)
Theorem probe_polling_schedule (env : Env) :
  intervals env = [] ->
  probes (fst (effect env)) = probes env ++ [now env]
  /\ (exists i, intervals (fst (effect env))
                = [mkInterval i CheckTrameServer 5000 (now env + 5000)])
  /\ (forall d,
        probes (advance d (fst (effect env)))
        = probes env ++ schedule (now env) d)
  /\ (forall d t,
        In t (schedule (now env) d)
        <-> exists k, (t = now env + 5000 * k /\ 5000 * k <= d)%N)
  /\ (forall d d',
        let torn := snd (effect env) (advance d (fst (effect env))) in
        intervals torn = []
        /\ probes torn = probes (advance d (fst (effect env)))
        /\ probes (advance d' torn) = probes torn).
Proof.
  intros Hno. split; [| split; [| split; [| split]]].
  - reflexivity.
  - exists (nextId env). unfold effect, setInterval, invoke.
    cbn -[N.add]. rewrite Hno. reflexivity.
  - intros d. rewrite (advance_mounted env d Hno). reflexivity.
  - intros d t. apply schedule_In.
  - intros d d' torn. subst torn.
    rewrite (cleanup_mounted env d Hno), (advance_mounted env d Hno).
    split; [reflexivity | split; [reflexivity |]].
    rewrite advance_no_timers by reflexivity. reflexivity.
Qed.

End Polling.

Lemma probe_polling_schedule_witness :
  Timers.probes (Timers.advance 12000 (fst (Timers.effect Samples.page)))
  = [7; 5007; 10007]%N
  /\ Timers.probes
       (Timers.advance 20000
          (snd (Timers.effect Samples.page)
               (Timers.advance 12000 (fst (Timers.effect Samples.page)))))
     = [7; 5007; 10007]%N.
Proof.
  destruct (probe_polling_schedule Samples.page eq_refl)
    as [_ [_ [H1 [_ H2]]]].
  split.
  - rewrite (H1 12000%N). reflexivity.
  - destruct (H2 12000%N 20000%N) as [_ [H3 H4]].
    rewrite H4, H3, (H1 12000%N). reflexivity.
Defined.

(** ** The preview panel *)

(** X1: the panel shows the first 100 rows of the Table, in order, and all
    of them when there are at most 100; the note with the total is there
    exactly when a row is left out, and the count in the panel's heading is
    the total, not the number of rows shown. *)
Theorem preview_shows_first_hundred (table : CSVData) :
  length (bodyRows (renderPreview table)) = Nat.min 100 (length (rows table))
  /\ (exists hidden,
        rows table = bodyRows (renderPreview table) ++ hidden
        /\ length hidden = length (rows table) - 100)
  /\ (truncationNote (renderPreview table) = None
      <-> bodyRows (renderPreview table) = rows table)
  /\ (forall n, truncationNote (renderPreview table) = Some n ->
        n = length (rows table) /\ 100 < n)
  /\ rowCount (renderPreview table) = length (rows table).
Proof.
  unfold renderPreview. cbn [bodyRows truncationNote rowCount].
  split; [| split; [| split; [| split]]].
  - apply length_firstn.
  - exists (skipn 100 (rows table)).
    split; [symmetry; apply firstn_skipn | apply length_skipn].
  - destruct (Nat.ltb_spec 100 (length (rows table))) as [L | L].
    + split; [discriminate |]. intros E.
      apply (f_equal (@length _)) in E. rewrite length_firstn in E. lia.
    + split; [| reflexivity]. intros _. apply firstn_all2. exact L.
  - intros n. destruct (Nat.ltb_spec 100 (length (rows table))) as [L | L].
    + intros [= <-]. split; [reflexivity | exact L].
    + discriminate.
  - reflexivity.
Qed.

Lemma TableClean_run (st : State) (events : list Event) :
  TableClean st -> TableClean (run st events).
Proof.
  revert st. induction events as [|e events IH]; intros st Hst; simpl.
  - exact Hst.
  - apply IH, TableClean_step, Hst.
Qed.

Lemma Forall_firstn {A : Type} (P : A -> Prop) (n : nat) (l : list A) :
  Forall P l -> Forall P (firstn n l).
Proof.
  revert n. induction l as [|x l IH]; intros [|n] H; simpl; try constructor.
  - inversion H; assumption.
  - apply IH. inversion H; assumption.
Qed.

(** X2: whatever sequence of file choices, parse completions, clears and
    probe results led to the current state, no row shown in the preview has
    only empty or white-space cells. *)
Theorem preview_never_shows_blank_row
    (toLowerCase : jsstring -> jsstring) (events : list Event) :
  match preview (render toLowerCase (run initial events)) with
  | Some p => Forall (fun row => ~ Forall WhitespaceOnly row) (bodyRows p)
  | None => True
  end.
Proof.
  pose proof (TableClean_run initial events I) as H.
  unfold TableClean in H. unfold render. cbn [preview].
  destruct (csvData (run initial events)) as [table |]; [| exact I].
  unfold renderPreview. cbn [bodyRows]. apply Forall_firstn, H.
Qed.

Lemma removeAllBlank_all_blank (rest : list (list jsstring)) :
  Forall (fun row => Forall WhitespaceOnly row) rest ->
  removeAllBlank rest = [].
Proof.
  induction 1 as [|row rest Hrow _ IH]; simpl; [reflexivity |].
  apply AllBlank_whitespace, allBlank_spec in Hrow. rewrite Hrow. exact IH.
Qed.

(** X3: a file that parses to a first row followed only by rows of empty or
    white-space cells (or by nothing) is not reported as empty: the upload
    sets a Table with that first row as headers and no rows, clears the
    error, and the preview panel is shown with a row count of 0. *)
Theorem blank_data_rows_give_empty_table
    (toLowerCase : jsstring -> jsstring)
    (f : File) (r : ParseResults) (st : State)
    (first : list jsstring) (rest : list (list jsstring)) :
  rejected f = false ->
  errors r = [] ->
  data r = first :: rest ->
  Forall (fun row => Forall WhitespaceOnly row) rest ->
  csvData (upload (Some f) r st) = Some {| headers := first; rows := [] |}
  /\ error (upload (Some f) r st) = None
  /\ preview (render toLowerCase (upload (Some f) r st))
     = Some {| rowCount := 0;
               columnCount := length first;
               headCells := first;
               bodyRows := [];
               truncationNote := None |}.
Proof.
  intros Hf He Hd Hblank.
  rewrite (upload_accept f r st Hf). unfold step.
  rewrite (complete_table r He Hd), (handleFileUpload_accept f Hf).
  rewrite (removeAllBlank_all_blank Hblank).
  split; [reflexivity | split; reflexivity].
Qed.

Lemma blank_data_rows_give_empty_table_witness :
  csvData (upload (Some Samples.csvFile) MoreSamples.headerOnly Samples.shown)
  = Some {| headers := [lit "a"; lit "b"]; rows := [] |}
  /\ error (upload (Some Samples.csvFile) MoreSamples.headerOnly Samples.shown)
     = None.
Proof.
  assert (Hblank : Forall (fun row => Forall WhitespaceOnly row)
                          [[lit " "; lit ""]; []]).
  { repeat constructor. }
  destruct (blank_data_rows_give_empty_table asciiToLowerCase
              Samples.csvFile MoreSamples.headerOnly Samples.shown
              eq_refl eq_refl eq_refl Hblank) as [H1 [H2 _]].
  split; [exact H1 | exact H2].
Defined.

Lemma removeAllBlank_count (rest : list (list jsstring)) :
  length (removeAllBlank rest) + length (filter allBlank rest) = length rest.
Proof.
  induction rest as [|row rest IH]; simpl; [reflexivity |].
  destruct (allBlank row); simpl; lia.
Qed.

(** X4: after a parse without parser errors, the number of rows the panel
    reports plus the number of all-blank rows among the parsed rows after
    the first is the number of parsed rows less one; the column count is
    the length of the first parsed row, whatever the lengths of the others. *)
Theorem preview_counts
    (toLowerCase : jsstring -> jsstring) (r : ParseResults) (st : State) :
  errors r = [] ->
  data r <> [] ->
  exists p,
    preview (render toLowerCase (step st (ParseCompleted r))) = Some p
    /\ rowCount p + length (filter allBlank (skipn 1 (data r)))
       = length (data r) - 1
    /\ columnCount p = length (nth 0 (data r) [])
    /\ headCells p = nth 0 (data r) [].
Proof.
  intros He Hd. destruct (data_cons r Hd) as [first [rest Hd']].
  unfold step. rewrite (complete_table r He Hd'), Hd'.
  eexists. split; [reflexivity |].
  cbn [rowCount columnCount headCells renderPreview rows headers skipn nth
       length].
  split; [| split; reflexivity].
  rewrite removeAllBlank_count. lia.
Qed.

Lemma preview_counts_witness :
  exists p,
    preview (render asciiToLowerCase
               (step initial (ParseCompleted Samples.goodResults))) = Some p
    /\ rowCount p + 1 = 2.
Proof.
  destruct (preview_counts asciiToLowerCase Samples.goodResults initial
              eq_refl) as [p [H1 [H2 _]]]; [discriminate |].
  exists p. split; [exact H1 | exact H2].
Defined.

(** ** What the page shows during and after an upload *)

Lemma completion_loading_false (r : ParseResults) (st : State) :
  loading (step st (ParseCompleted r)) = false.
Proof.
  unfold step. destruct (errors r) as [|e es] eqn:He.
  - destruct (data r) as [|first rest] eqn:Hd.
    + rewrite (complete_empty r He Hd). reflexivity.
    + rewrite (complete_table r He Hd). reflexivity.
  - rewrite complete_errors by congruence. reflexivity.
Qed.

(** X5: every parse completion, whatever its outcome, ends the loading
    state: the spinner is gone and the upload button is enabled again under
    its normal label. *)
Theorem completion_ends_loading
    (toLowerCase : jsstring -> jsstring) (r : ParseResults) (st : State) :
  loading (step st (ParseCompleted r)) = false
  /\ spinner (render toLowerCase (step st (ParseCompleted r))) = false
  /\ uploadDisabled (render toLowerCase (step st (ParseCompleted r))) = false
  /\ uploadLabel (render toLowerCase (step st (ParseCompleted r)))
     = lit "Upload CSV File".
Proof.
  pose proof (completion_loading_false r st) as H.
  unfold render. cbn [spinner uploadDisabled uploadLabel]. rewrite H.
  repeat split.
Qed.



Lemma KnownError_step (st : State) (e : Event) :
  KnownError st -> KnownError (step st e).
Proof.
  unfold KnownError, knownMessages.
  intros Hst. destruct e as [[f|] | r | | settled]; simpl.
  - unfold handleFileUpload. destruct (rejected f); simpl; tauto.
  - exact Hst.
  - unfold complete.
    destruct (0 <? length (errors r))%nat; [simpl; tauto |].
    destruct (length (data r) =? 0)%nat; simpl; tauto.
  - exact I.
  - destruct settled; exact Hst.
Qed.

Lemma KnownError_run (st : State) (events : list Event) :
  KnownError st -> KnownError (run st events).
Proof.
  revert st. induction events as [|e events IH]; intros st Hst; simpl.
  - exact Hst.
  - apply IH, KnownError_step, Hst.
Qed.

(** X7: in every state the page can reach, the error cell is absent or is
    one of the three messages of the handlers, none of them empty; so the
    error alert is displayed exactly when an error is set, with that
    message. *)
Theorem error_alert_shows_the_error
    (toLowerCase : jsstring -> jsstring) (events : list Event) :
  KnownError (run initial events)
  /\ errorAlert (render toLowerCase (run initial events))
     = error (run initial events).
Proof.
  pose proof (KnownError_run initial events I) as H.
  split; [exact H |].
  unfold KnownError, knownMessages in H. unfold render. cbn [errorAlert].
  destruct (error (run initial events)) as [message |]; [| reflexivity].
  simpl in H. decompose [or] H; subst; try reflexivity. contradiction.
Qed.

(** X8: the file name chip carries the only control that clears.  Whenever
    it is displayed, using it puts the four ingestion cells back to their
    initial values, and the page then shows no chip, no error, no preview
    and no compatibility banner. *)
Theorem delete_control_resets_ingestion
    (toLowerCase : jsstring -> jsstring) (st : State) :
  fileChip (render toLowerCase st) <> None ->
  step st ClearClicked
  = {| csvData := csvData initial;
       loading := loading initial;
       error := error initial;
       fileName := fileName initial;
       trameServerRunning := trameServerRunning st |}
  /\ fileChip (render toLowerCase (step st ClearClicked)) = None
  /\ errorAlert (render toLowerCase (step st ClearClicked)) = None
  /\ preview (render toLowerCase (step st ClearClicked)) = None
  /\ compatibleBanner (render toLowerCase (step st ClearClicked)) = false
  /\ spinner (render toLowerCase (step st ClearClicked)) = false.
Proof.
  unfold render at 1. cbn [fileChip]. intros H.
  destruct (loading st) eqn:L.
  - rewrite andb_false_r in H. contradiction.
  - unfold step, clearData, commit. simpl. rewrite L. repeat split.
Qed.

Lemma delete_control_resets_ingestion_witness :
  step Samples.shown ClearClicked = initial.
Proof.
  apply (delete_control_resets_ingestion asciiToLowerCase Samples.shown).
  discriminate.
Defined.

(** ** The two units do not interact *)

Lemma sameIngestion_refl (st : State) : sameIngestion st st.
Proof. repeat split. Qed.

Lemma sameIngestion_apply (a b : State) (act : Action) :
  sameIngestion a b ->
  (forall v, act <> SetTrameServerRunning v) ->
  sameIngestion (apply a act) (apply b act).
Proof.
  intros [H1 [H2 [H3 H4]]] Hact. unfold sameIngestion.
  destruct act; simpl; repeat split; try assumption.
Qed.

Lemma sameIngestion_commit (acts : list Action) (a b : State) :
  sameIngestion a b ->
  (forall act v, In act acts -> act <> SetTrameServerRunning v) ->
  sameIngestion (commit acts a) (commit acts b).
Proof.
  unfold commit. revert a b.
  induction acts as [|act acts IH]; intros a b Hab Hacts; simpl.
  - exact Hab.
  - apply IH.
    + apply sameIngestion_apply; [exact Hab |].
      intros v. apply Hacts. left; reflexivity.
    + intros act' v Hin. apply Hacts. right; exact Hin.
Qed.

Lemma flag_commit (acts : list Action) (a b : State) :
  trameServerRunning a = trameServerRunning b ->
  trameServerRunning (commit acts a) = trameServerRunning (commit acts b).
Proof.
  unfold commit. revert a b.
  induction acts as [|act acts IH]; intros a b Hab; simpl.
  - exact Hab.
  - apply IH. destruct act; simpl; congruence.
Qed.

Lemma ingestion_actions (e : Event) (act : Action) (v : bool) (st : State) :
  isProbe e = false ->
  In act (match e with
          | FileChosen file => fst (handleFileUpload file)
          | ParseCompleted results => complete results
          | ClearClicked => clearData
          | ProbeSettled settled => checkTrameServer settled
          end) ->
  act <> SetTrameServerRunning v.
Proof.
  destruct e as [[f|] | r | | settled]; simpl; try discriminate; intros _.
  - unfold handleFileUpload. destruct (rejected f); simpl;
      intros H; decompose [or] H; subst; try discriminate; contradiction.
  - contradiction.
  - unfold complete.
    destruct (0 <? length (errors r))%nat;
      [| destruct (length (data r) =? 0)%nat]; simpl;
      intros H; decompose [or] H; subst; try discriminate; contradiction.
  - intros H; decompose [or] H; subst; try discriminate; contradiction.
Qed.

Lemma step_ingestion (a b : State) (e : Event) :
  sameIngestion a b -> sameIngestion (step a e) (step b e).
Proof.
  intros Hab. destruct (isProbe e) eqn:Hp.
  - destruct e as [| | | settled]; try discriminate.
    destruct Hab as [H1 [H2 [H3 H4]]].
    destruct settled; simpl; repeat split; assumption.
  - destruct e as [file | r | | settled]; try discriminate; unfold step;
      apply sameIngestion_commit; try exact Hab;
      intros act v Hin;
      [ apply (@ingestion_actions (FileChosen file) act v a Hp Hin)
      | apply (@ingestion_actions (ParseCompleted r) act v a Hp Hin)
      | apply (@ingestion_actions ClearClicked act v a Hp Hin) ].
Qed.

Lemma step_probe_ingestion (a b : State) (e : Event) :
  isProbe e = true -> sameIngestion a b -> sameIngestion (step a e) b.
Proof.
  destruct e as [| | | settled]; try discriminate. intros _ [H1 [H2 [H3 H4]]].
  destruct settled; simpl; repeat split; assumption.
Qed.

Lemma step_flag (a b : State) (e : Event) :
  trameServerRunning a = trameServerRunning b ->
  trameServerRunning (step a e) = trameServerRunning (step b e).
Proof.
  intros Hab. destruct e; unfold step; apply flag_commit, Hab.
Qed.

Lemma step_ingestion_flag (a b : State) (e : Event) :
  isProbe e = false ->
  trameServerRunning a = trameServerRunning b ->
  trameServerRunning (step a e) = trameServerRunning b.
Proof.
  intros Hp Hab. destruct e as [[f|] | r | | settled]; try discriminate; simpl.
  - unfold handleFileUpload. destruct (rejected f); exact Hab.
  - exact Hab.
  - unfold complete.
    destruct (0 <? length (errors r))%nat;
      [| destruct (length (data r) =? 0)%nat]; exact Hab.
  - exact Hab.
Qed.

(** X9: uploads, parse completions and clears never change the reachable
    flag, and probe results never change the Table, the loading flag, the
    error or the file name: after any sequence of events the ingestion
    cells are what the events other than probe results alone produce, and
    the flag is what the probe results alone produce. *)
Theorem ingestion_and_probe_do_not_interact (st : State) (events : list Event) :
  sameIngestion (run st events)
                (run st (filter (fun e => negb (isProbe e)) events))
  /\ trameServerRunning (run st events)
     = trameServerRunning (run st (filter isProbe events)).
Proof.
  assert (H : forall a b,
             sameIngestion a b ->
             sameIngestion (run a events)
               (run b (filter (fun e => negb (isProbe e)) events))).
  { induction events as [|e events IH]; intros a b Hab; simpl; [exact Hab |].
    destruct (isProbe e) eqn:Hp; simpl; apply IH.
    - apply step_probe_ingestion; assumption.
    - apply step_ingestion; assumption. }
  assert (G : forall a b,
             trameServerRunning a = trameServerRunning b ->
             trameServerRunning (run a events)
             = trameServerRunning (run b (filter isProbe events))).
  { clear H. induction events as [|e events IH]; intros a b Hab; simpl;
      [exact Hab |].
    destruct (isProbe e) eqn:Hp; simpl; apply IH.
    - apply step_flag; assumption.
    - apply step_ingestion_flag; assumption. }
  split; [apply H, sameIngestion_refl | apply G; reflexivity].
Qed.

(** ** More on 3-D compatibility *)

(** X10: when lower-casing keeps the eight required names apart (as it
    does), a Table is compatible only if it has at least eight headers with
    eight different lower-cased spellings; a Table with fewer than eight
    columns never is. *)
Theorem has3DColumns_needs_eight_headers
    (toLowerCase : jsstring -> jsstring) (data : CSVData) :
  NoDup (map toLowerCase requiredColumns) ->
  has3DColumns toLowerCase data = true ->
  8 <= length (headers data)
  /\ incl (map toLowerCase requiredColumns) (map toLowerCase (headers data)).
Proof.
  intros Hnd H.
  assert (Hincl : incl (map toLowerCase requiredColumns)
                       (map toLowerCase (headers data))).
  { intros low Hin. apply in_map_iff in Hin. destruct Hin as [col [<- Hcol]].
    destruct (proj1 (has3DColumns_all toLowerCase data) H col Hcol)
      as [header [Hh E]].
    rewrite <- E. apply in_map, Hh. }
  split; [| exact Hincl].
  pose proof (NoDup_incl_length Hnd Hincl) as L.
  rewrite !length_map in L. exact L.
Qed.

Lemma has3DColumns_needs_eight_headers_witness :
  8 <= length (headers Samples.lowerHeaders).
Proof.
  apply (@has3DColumns_needs_eight_headers asciiToLowerCase
           Samples.lowerHeaders).
  - repeat constructor; simpl; intuition discriminate.
  - reflexivity.
Defined.

(** X11: after a parse without parser errors the compatibility banner is
    decided by the first parsed row alone: the data rows play no part, and
    a file with a header row and no data shows the banner as well. *)
Theorem banner_decided_by_first_row
    (toLowerCase : jsstring -> jsstring) (r : ParseResults) (st : State)
    (first : list jsstring) (rest : list (list jsstring)) :
  errors r = [] ->
  data r = first :: rest ->
  compatibleBanner (render toLowerCase (step st (ParseCompleted r)))
  = has3DColumns toLowerCase {| headers := first; rows := [] |}.
Proof.
  intros He Hd. unfold step. rewrite (complete_table r He Hd). reflexivity.
Qed.

Lemma banner_decided_by_first_row_witness :
  compatibleBanner
    (render asciiToLowerCase
       (step initial
          (ParseCompleted
             {| data := [headers Samples.lowerHeaders]; errors := [] |})))
  = true.
Proof.
  rewrite (@banner_decided_by_first_row asciiToLowerCase
             {| data := [headers Samples.lowerHeaders]; errors := [] |}
             initial (headers Samples.lowerHeaders) [] eq_refl eq_refl).
  reflexivity.
Defined.

(** ** Two uploads in flight *)

(** X12: completions are applied in the order they arrive, whichever upload
    started last.  When a second accepted file is chosen before the first
    parse completes and the first parse completes last, the page ends with
    the Table of the first file under the name of the second; and the first
    completion to arrive already ends the loading state. *)
Theorem last_completion_wins
    (fA fB : File) (rA rB : ParseResults) (st : State)
    (first : list jsstring) (rest : list (list jsstring)) :
  rejected fA = false ->
  rejected fB = false ->
  errors rA = [] ->
  data rA = first :: rest ->
  loading (run st [FileChosen (Some fA); FileChosen (Some fB);
                   ParseCompleted rB]) = false
  /\ csvData (run st [FileChosen (Some fA); FileChosen (Some fB);
                      ParseCompleted rB; ParseCompleted rA])
     = Some (tableOf first rest)
  /\ fileName (run st [FileChosen (Some fA); FileChosen (Some fB);
                       ParseCompleted rB; ParseCompleted rA])
     = name fB.
Proof.
  intros HA HB He Hd.
  assert (Hname : forall r s, fileName (commit (complete r) s) = fileName s).
  { intros r s. unfold complete.
    destruct (0 <? length (errors r))%nat;
      [| destruct (length (data r) =? 0)%nat]; reflexivity. }
  split; [| split].
  - change (run st [FileChosen (Some fA); FileChosen (Some fB);
                    ParseCompleted rB])
      with (step (step (step st (FileChosen (Some fA)))
                       (FileChosen (Some fB))) (ParseCompleted rB)).
    apply (completion_loading_false rB).
  - simpl. rewrite (complete_table rA He Hd). reflexivity.
  - unfold run. cbn [fold_left step].
    rewrite !Hname, (handleFileUpload_accept fB HB). reflexivity.
Qed.

Lemma last_completion_wins_witness :
  csvData (run initial
             [FileChosen (Some Samples.csvFile);
              FileChosen (Some Samples.untypedFile);
              ParseCompleted Samples.emptyResults;
              ParseCompleted Samples.goodResults])
  = Some Samples.goodTable
  /\ fileName (run initial
                 [FileChosen (Some Samples.csvFile);
                  FileChosen (Some Samples.untypedFile);
                  ParseCompleted Samples.emptyResults;
                  ParseCompleted Samples.goodResults])
     = lit "second.csv".
Proof.
  destruct (@last_completion_wins Samples.csvFile Samples.untypedFile
              Samples.goodResults Samples.emptyResults initial
              _ _ eq_refl eq_refl eq_refl eq_refl) as [_ [H1 H2]].
  split; [exact H1 | exact H2].
Defined.

(** ** More on polling *)

Section PollingFrames.

Import Timers.

(** Timers never read the log of calls: a longer log in front changes
    nothing but the log. *)
Lemma fire_log_prefix (pre : list N) (t : N) (ts : list Interval) (k : nat)
    (ps : list N) (u : Interval) :
  fire (mkEnv t ts k (pre ++ ps)) u =
  mkEnv (now (fire (mkEnv t ts k ps) u))
        (intervals (fire (mkEnv t ts k ps) u))
        (nextId (fire (mkEnv t ts k ps) u))
        (pre ++ probes (fire (mkEnv t ts k ps) u)).
Proof.
  unfold fire. cbn -[N.add N.leb].
  destruct (due u <=? t)%N; [| reflexivity].
  destruct (handler u). cbn -[N.add]. rewrite app_assoc. reflexivity.
Qed.

Lemma fold_fire_log_prefix (pre : list N) (us : list Interval) (env : Env) :
  fold_left fire us
    (mkEnv (now env) (intervals env) (nextId env) (pre ++ probes env)) =
  mkEnv (now (fold_left fire us env))
        (intervals (fold_left fire us env))
        (nextId (fold_left fire us env))
        (pre ++ probes (fold_left fire us env)).
Proof.
  revert env. induction us as [|u us IH]; intros env; simpl.
  - reflexivity.
  - destruct env as [t ts k ps]. cbn [now intervals nextId probes].
    rewrite fire_log_prefix. apply IH.
Qed.

Lemma tick_log_prefix (pre : list N) (env : Env) :
  tick (mkEnv (now env) (intervals env) (nextId env) (pre ++ probes env)) =
  mkEnv (now (tick env)) (intervals (tick env)) (nextId (tick env))
        (pre ++ probes (tick env)).
Proof.
  unfold tick. cbn [now intervals nextId probes].
  apply (fold_fire_log_prefix pre (intervals env)
           (mkEnv (now env + 1) (intervals env) (nextId env) (probes env))).
Qed.

Lemma advance_log_prefix (pre : list N) (d : N) (env : Env) :
  advance d (mkEnv (now env) (intervals env) (nextId env) (pre ++ probes env)) =
  mkEnv (now (advance d env)) (intervals (advance d env))
        (nextId (advance d env)) (pre ++ probes (advance d env)).
Proof.
  unfold advance. induction d as [|d IH] using N.peano_ind.
  - reflexivity.
  - rewrite !N.iter_succ, IH. apply tick_log_prefix.
Qed.

(** X13: a click on "Refresh status" calls the probe once, at the time of
    the click, and leaves the timers alone: from then on the clock, the
    timers and the timed calls are the same as without the click. *)
Theorem refresh_adds_one_call (env : Env) (d : N) :
  probes (refresh env) = probes env ++ [now env]
  /\ intervals (refresh env) = intervals env
  /\ now (advance d (refresh env)) = now (advance d env)
  /\ intervals (advance d (refresh env)) = intervals (advance d env)
  /\ exists later,
       probes (advance d env) = probes env ++ later
       /\ probes (advance d (refresh env)) = probes env ++ now env :: later.
Proof.
  destruct env as [t ts k ps]. unfold refresh, invoke.
  cbn [now intervals nextId probes].
  pose proof (advance_log_prefix (ps ++ [t]) d (mkEnv t ts k [])) as H1.
  pose proof (advance_log_prefix ps d (mkEnv t ts k [])) as H2.
  cbn [now intervals nextId probes] in H1, H2.
  rewrite !app_nil_r in H1, H2. rewrite H1, H2.
  cbn [now intervals nextId probes].
  split; [reflexivity | split; [reflexivity | split; [reflexivity |
    split; [reflexivity |]]]].
  exists (probes (advance d (mkEnv t ts k []))).
  split; [reflexivity |]. rewrite <- app_assoc. reflexivity.
Qed.

(** Timers with other ids evolve the same with and without the timer
    [own]. *)
Lemma fire_other (n : nat) (own u : Interval) (t : N) (l : list Interval)
    (k1 k2 : nat) (ps1 ps2 : list N) :
  (id u < n)%nat -> id own = n ->
  Forall (fun x => (id x < n)%nat) l ->
  exists l' ps1' ps2',
    fire (mkEnv t (l ++ [own]) k1 ps1) u = mkEnv t (l' ++ [own]) k1 ps1'
    /\ fire (mkEnv t l k2 ps2) u = mkEnv t l' k2 ps2'
    /\ Forall (fun x => (id x < n)%nat) l'.
Proof.
  intros Hu Hown Hl. unfold fire. cbn -[N.add N.leb].
  destruct (due u <=? t)%N.
  - destruct (handler u). cbn -[N.add].
    eexists _, _, _. split; [| split; [reflexivity |]].
    + rewrite map_app. cbn -[N.add].
      destruct (Nat.eqb_spec (id own) (id u)) as [E | E]; [lia | reflexivity].
    + apply Forall_forall. intros x Hx. apply in_map_iff in Hx.
      destruct Hx as [y [<- Hy]].
      rewrite Forall_forall in Hl. specialize (Hl y Hy).
      destruct (id y =? id u)%nat; exact Hl.
  - exists l, ps1, ps2. split; [reflexivity | split; [reflexivity | exact Hl]].
Qed.

Lemma fold_fire_other (n : nat) (own : Interval) (t : N) (k1 k2 : nat)
    (us : list Interval) :
  id own = n ->
  Forall (fun x => (id x < n)%nat) us ->
  forall (l : list Interval) (ps1 ps2 : list N),
    Forall (fun x => (id x < n)%nat) l ->
    exists l' ps1' ps2',
      fold_left fire us (mkEnv t (l ++ [own]) k1 ps1)
      = mkEnv t (l' ++ [own]) k1 ps1'
      /\ fold_left fire us (mkEnv t l k2 ps2) = mkEnv t l' k2 ps2'
      /\ Forall (fun x => (id x < n)%nat) l'.
Proof.
  intros Hown. induction 1 as [|u us Hu _ IH]; intros l ps1 ps2 Hl.
  - exists l, ps1, ps2. repeat split; assumption.
  - destruct (fire_other own u t k1 k2 ps1 ps2 Hu Hown Hl)
      as [l' [ps1' [ps2' [E1 [E2 Hl']]]]].
    cbn [fold_left]. rewrite E1, E2. apply IH, Hl'.
Qed.

Lemma fire_own (n : nat) (own : Interval) (t : N) (l : list Interval)
    (k : nat) (ps : list N) :
  id own = n ->
  Forall (fun x => (id x < n)%nat) l ->
  exists own' ps',
    fire (mkEnv t (l ++ [own]) k ps) own = mkEnv t (l ++ [own']) k ps'
    /\ id own' = n.
Proof.
  intros Hown Hl. unfold fire. cbn -[N.add N.leb].
  destruct (due own <=? t)%N.
  - destruct (handler own). cbn -[N.add].
    eexists _, _. split.
    + rewrite map_app. cbn -[N.add]. rewrite Nat.eqb_refl.
      f_equal. f_equal. rewrite <- (map_id l) at 2.
      apply map_ext_in. intros x Hx.
      rewrite Forall_forall in Hl. specialize (Hl x Hx).
      destruct (Nat.eqb_spec (id x) (id own)) as [E | E]; [lia | reflexivity].
    + exact Hown.
  - exists own, ps. split; [reflexivity | exact Hown].
Qed.

Lemma tick_other (n : nat) (own : Interval) (t : N) (l : list Interval)
    (k1 k2 : nat) (ps1 ps2 : list N) :
  id own = n ->
  Forall (fun x => (id x < n)%nat) l ->
  exists l' own' ps1' ps2',
    tick (mkEnv t (l ++ [own]) k1 ps1) = mkEnv (t + 1) (l' ++ [own']) k1 ps1'
    /\ tick (mkEnv t l k2 ps2) = mkEnv (t + 1) l' k2 ps2'
    /\ Forall (fun x => (id x < n)%nat) l'
    /\ id own' = n.
Proof.
  intros Hown Hl. unfold tick. cbn [now intervals nextId probes].
  rewrite fold_left_app. cbn [fold_left].
  destruct (fold_fire_other own (t + 1) k1 k2 Hown Hl ps1 ps2 Hl)
    as [l' [ps1' [ps2' [E1 [E2 Hl']]]]].
  rewrite E1, E2.
  destruct (fire_own own (t + 1) k1 ps1' Hown Hl') as [own' [ps' [E Hown']]].
  rewrite E. exists l', own', ps', ps2'. repeat split; assumption.
Qed.

Lemma advance_other (env : Env) (d : N) :
  WellFormed env ->
  exists l own ps1 ps2,
    advance d (fst (effect env))
    = mkEnv (now env + d) (l ++ [own]) (S (nextId env)) ps1
    /\ advance d env = mkEnv (now env + d) l (nextId env) ps2
    /\ Forall (fun x => (id x < nextId env)%nat) l
    /\ id own = nextId env.
Proof.
  intros Hwf. unfold advance.
  induction d as [|d IH] using N.peano_ind.
  - destruct env as [t ts k ps]. unfold WellFormed in Hwf.
    cbn [now intervals nextId probes] in *.
    exists ts, (mkInterval k CheckTrameServer 5000 (t + 5000)),
           (ps ++ [t]), ps.
    cbn -[N.add]. rewrite N.add_0_r. repeat split. exact Hwf.
  - destruct IH as [l [own [ps1 [ps2 [E1 [E2 [Hl Hown]]]]]]].
    rewrite !N.iter_succ, E1, E2.
    destruct (tick_other own (now env + d) (S (nextId env)) (nextId env)
                ps1 ps2 Hown Hl)
      as [l' [own' [ps1' [ps2' [T1 [T2 [Hl' Hown']]]]]]].
    rewrite T1, T2. exists l', own', ps1', ps2'.
    replace (now env + N.succ d)%N with (now env + d + 1)%N by lia.
    repeat split; assumption.
Qed.

(** X14: the clean-up stops the timer its own mount created and no other.
    On a page where other timers run, after the view was mounted for any
    time and then torn down, the timers left are exactly those the page
    would have had the view never been mounted. *)
Theorem cleanup_stops_only_own_timer (env : Env) (d : N) :
  WellFormed env ->
  intervals (snd (effect env) (advance d (fst (effect env))))
  = intervals (advance d env)
  /\ now (snd (effect env) (advance d (fst (effect env))))
     = now (advance d env).
Proof.
  intros Hwf.
  destruct (advance_other d Hwf) as [l [own [ps1 [ps2 [E1 [E2 [Hl Hown]]]]]]].
  rewrite E1, E2. unfold effect, setInterval, clearInterval.
  cbn [snd now intervals nextId probes invoke].
  split; [| reflexivity].
  rewrite filter_app. cbn [filter]. rewrite Hown, Nat.eqb_refl.
  cbn [negb]. rewrite app_nil_r.
  rewrite <- (firstn_all l) at 2. clear E1 E2.
  induction Hl as [|x l Hx _ IH]; [reflexivity |].
  cbn [filter]. destruct (Nat.eqb_spec (id x) (nextId env)) as [E | E];
    [lia |].
  cbn [negb]. rewrite firstn_all in *. f_equal. exact IH.
Qed.

End PollingFrames.

Lemma cleanup_stops_only_own_timer_witness :
  Timers.intervals
    (snd (Timers.effect MoreSamples.busyPage)
         (Timers.advance 6000 (fst (Timers.effect MoreSamples.busyPage))))
  = [Timers.mkInterval 0 Timers.CheckTrameServer 3000 7000].
Proof.
  assert (Hwf : WellFormed MoreSamples.busyPage).
  { repeat constructor. }
  rewrite (proj1 (cleanup_stops_only_own_timer 6000 Hwf)).
  vm_compute. reflexivity.
Defined.

Section Sessions.

Import Timers.

Lemma session_no_timers (env : Env) (p : N * N) :
  intervals env = [] ->
  session env p =
  mkEnv (now env + fst p + snd p) [] (S (nextId env))
        (probes env ++ schedule (now env) (fst p)).
Proof.
  intros Hno. destruct p as [d pause]. unfold session.
  pose proof (cleanup_mounted env d Hno) as H.
  destruct (effect env) as [mounted cleanup]. cbn [fst snd] in *.
  rewrite H. rewrite advance_no_timers by reflexivity. reflexivity.
Qed.

(** X15: mounting and tearing down the view any number of times leaves no
    timer behind, and the probe was called once per mount plus once for
    every full 5000 time units of each mounted period; the time spent
    unmounted adds no call. *)
Theorem sessions_leave_no_timer (env : Env) (ps : list (N * N)) :
  intervals env = [] ->
  intervals (sessions env ps) = []
  /\ length (probes (sessions env ps))
     = length (probes env) + list_sum (map callsIn ps)
  /\ now (sessions env ps)
     = (now env + fold_right (fun p acc => fst p + snd p + acc) 0 ps)%N.
Proof.
  unfold sessions. revert env.
  induction ps as [|p ps IH]; intros env Hno; cbn [fold_left].
  - cbn. split; [exact Hno | split; lia].
  - rewrite (session_no_timers env p Hno).
    destruct (IH (mkEnv (now env + fst p + snd p) [] (S (nextId env))
                        (probes env ++ schedule (now env) (fst p)))
                 eq_refl) as [H1 [H2 H3]].
    split; [exact H1 | split].
    + assert (L : length (schedule (now env) (fst p)) = callsIn p).
      { unfold schedule, callsIn. rewrite length_map, length_seq.
        reflexivity. }
      rewrite H2. cbn [probes]. rewrite length_app, L.
      change (list_sum (map callsIn (p :: ps)))
        with (callsIn p + list_sum (map callsIn ps)).
      lia.
    + rewrite H3. cbn [now].
      change (fold_right (fun q acc => fst q + snd q + acc) 0 (p :: ps))%N
        with (fst p + snd p
              + fold_right (fun q acc => fst q + snd q + acc) 0 ps)%N.
      lia.
Qed.

End Sessions.

Lemma sessions_leave_no_timer_witness :
  Timers.intervals
    (sessions Samples.page [(12000, 300); (4999, 0); (5000, 10)]%N) = []
  /\ length (Timers.probes
               (sessions Samples.page [(12000, 300); (4999, 0); (5000, 10)]%N))
     = 6.
Proof.
  destruct (@sessions_leave_no_timer Samples.page
              [(12000, 300); (4999, 0); (5000, 10)]%N eq_refl)
    as [H1 [H2 _]].
  split; [exact H1 | exact H2].
Defined.

(** ** Where the displayed values come from *)

(** X16: the Table changes only when a parse completes without parser
    errors and with at least one row, or when the data are cleared; choosing
    a file (accepted, rejected, or none), a failed parse and a probe result
    never touch it. *)
Theorem table_changes_only_on_success_or_clear (st : State) (e : Event) :
  csvData (step st e) <> csvData st ->
  e = ClearClicked
  \/ exists r, e = ParseCompleted r /\ errors r = [] /\ data r <> [].
Proof.
  intros H. destruct e as [[f|] | r | | settled].
  - exfalso. apply H. simpl. unfold handleFileUpload.
    destruct (rejected f); reflexivity.
  - exfalso. apply H. reflexivity.
  - right. exists r. split; [reflexivity |].
    destruct (errors r) as [|err errs] eqn:He.
    + split; [reflexivity |]. intros Hd. apply H. unfold step.
      rewrite (complete_empty r He Hd). reflexivity.
    + exfalso. apply H. unfold step.
      rewrite complete_errors by congruence. reflexivity.
  - left. reflexivity.
  - exfalso. apply H. destruct settled; reflexivity.
Qed.

Lemma table_changes_only_on_success_or_clear_witness :
  ClearClicked = ClearClicked
  \/ exists r, ClearClicked = ParseCompleted r /\ errors r = [] /\ data r <> [].
Proof.
  apply (@table_changes_only_on_success_or_clear Samples.shown ClearClicked).
  discriminate.
Defined.

Lemma fileName_step (st : State) (e : Event) :
  fileName (step st e) = fileName st
  \/ fileName (step st e) = lit ""
  \/ exists f, e = FileChosen (Some f) /\ rejected f = false
               /\ fileName (step st e) = name f.
Proof.
  destruct e as [[f|] | r | | settled]; simpl.
  - unfold handleFileUpload. destruct (rejected f) eqn:Hf; simpl.
    + left. reflexivity.
    + right. right. exists f. repeat split. exact Hf.
  - left. reflexivity.
  - left. unfold complete.
    destruct (0 <? length (errors r))%nat;
      [| destruct (length (data r) =? 0)%nat]; reflexivity.
  - right. left. reflexivity.
  - left. destruct settled; reflexivity.
Qed.

Lemma fileName_run (events : list Event) (st : State) :
  fileName (run st events) = fileName st
  \/ fileName (run st events) = lit ""
  \/ exists f, In (FileChosen (Some f)) events /\ rejected f = false
               /\ fileName (run st events) = name f.
Proof.
  revert st. induction events as [|e events IH]; intros st; simpl.
  - left. reflexivity.
  - destruct (IH (step st e)) as [H | [H | [f [Hin [Hf H]]]]].
    + rewrite H.
      destruct (fileName_step st e) as [G | [G | [f [-> [Hf G]]]]].
      * left. exact G.
      * right. left. exact G.
      * right. right. exists f. split; [left; reflexivity | split; assumption].
    + right. left. exact H.
    + right. right. exists f. split; [right; exact Hin | split; assumption].
Qed.

(** X17: the file name on the chip is always the name of a file that was
    chosen and passed the file-type check (its type is "text/csv" or its
    name ends with ".csv"): a rejected file's name is never displayed. *)
Theorem chip_names_an_accepted_file
    (toLowerCase : jsstring -> jsstring) (events : list Event)
    (label : jsstring) :
  fileChip (render toLowerCase (run initial events)) = Some label ->
  exists f,
    In (FileChosen (Some f)) events
    /\ label = name f
    /\ (type f = lit "text/csv" \/ exists pre, name f = pre ++ lit ".csv").
Proof.
  unfold render. cbn [fileChip]. intros H.
  destruct (truthy (fileName (run initial events))) eqn:T;
    [| discriminate].
  destruct (loading (run initial events)); [discriminate |].
  injection H as <-.
  destruct (fileName_run events initial) as [G | [G | [f [Hin [Hf G]]]]].
  - rewrite G in T. discriminate.
  - rewrite G in T. discriminate.
  - exists f. split; [exact Hin | split; [exact G |]].
    apply rejected_false_iff, Hf.
Qed.

Lemma chip_names_an_accepted_file_witness :
  exists f,
    In (FileChosen (Some f))
       [FileChosen (Some Samples.csvFile);
        ParseCompleted Samples.goodResults;
        FileChosen (Some Samples.textFile)]
    /\ lit "data.csv" = name f
    /\ (type f = lit "text/csv" \/ exists pre, name f = pre ++ lit ".csv").
Proof.
  apply (@chip_names_an_accepted_file asciiToLowerCase
           [FileChosen (Some Samples.csvFile);
            ParseCompleted Samples.goodResults;
            FileChosen (Some Samples.textFile)]).
  reflexivity.
Defined.

Lemma csvData_step (st : State) (e : Event) :
  csvData (step st e) = csvData st
  \/ csvData (step st e) = None
  \/ exists r first rest,
       e = ParseCompleted r /\ errors r = [] /\ data r = first :: rest
       /\ csvData (step st e) = Some (tableOf first rest).
Proof.
  destruct e as [[f|] | r | | settled].
  - left. simpl. unfold handleFileUpload. destruct (rejected f); reflexivity.
  - left. reflexivity.
  - unfold step. destruct (errors r) as [|err errs] eqn:He.
    + destruct (data r) as [|first rest] eqn:Hd.
      * left. rewrite (complete_empty r He Hd). reflexivity.
      * right. right. exists r, first, rest.
        rewrite (complete_table r He Hd). repeat split; assumption.
    + left. rewrite complete_errors by congruence. reflexivity.
  - right. left. reflexivity.
  - left. destruct settled; reflexivity.
Qed.

(** X18: a displayed Table always comes from a parse result that was
    delivered without parser errors: its headers are that result's first
    row and its rows are the result's later rows less the all-blank ones.
    Rows of a result that came with parser errors are never displayed. *)
Theorem table_comes_from_a_clean_parse (events : list Event) (table : CSVData) :
  csvData (run initial events) = Some table ->
  exists r first rest,
    In (ParseCompleted r) events
    /\ errors r = []
    /\ data r = first :: rest
    /\ table = tableOf first rest.
Proof.
  assert (H : forall st,
             csvData (run st events) = csvData st
             \/ csvData (run st events) = None
             \/ exists r first rest,
                  In (ParseCompleted r) events /\ errors r = []
                  /\ data r = first :: rest
                  /\ csvData (run st events) = Some (tableOf first rest)).
  { induction events as [|e events IH]; intros st; simpl.
    - left. reflexivity.
    - destruct (IH (step st e))
        as [G | [G | [r [first [rest [Hin [He [Hd G]]]]]]]].
      + rewrite G.
        destruct (csvData_step st e)
          as [K | [K | [r [first [rest [-> [He [Hd K]]]]]]]].
        * left. exact K.
        * right. left. exact K.
        * right. right. exists r, first, rest.
          split; [left; reflexivity | repeat split; assumption].
      + right. left. exact G.
      + right. right. exists r, first, rest.
        split; [right; exact Hin | repeat split; assumption]. }
  intros Ht.
  destruct (H initial) as [G | [G | [r [first [rest [Hin [He [Hd G]]]]]]]].
  - rewrite G in Ht. discriminate.
  - rewrite G in Ht. discriminate.
  - exists r, first, rest. repeat split; try assumption. congruence.
Qed.

Lemma table_comes_from_a_clean_parse_witness :
  exists r first rest,
    In (ParseCompleted r)
       [FileChosen (Some Samples.csvFile);
        ParseCompleted Samples.goodResults;
        ParseCompleted Samples.errorResults]
    /\ errors r = []
    /\ data r = first :: rest
    /\ Samples.goodTable = tableOf first rest.
Proof.
  apply (@table_comes_from_a_clean_parse
           [FileChosen (Some Samples.csvFile);
            ParseCompleted Samples.goodResults;
            ParseCompleted Samples.errorResults]).
  reflexivity.
Defined.

(** ** The server status panel *)

(** X19: after a probe settles, the status chip reads "Running", the
    "ready" alert with the link is shown and the visualizer is embedded
    exactly when the request resolved with a status from 200 to 299; in
    every other case, a thrown request included, the chip reads "Stopped"
    and there is no frame.  The four status elements always agree. *)
Theorem status_panel_follows_probe
    (toLowerCase : jsstring -> jsstring) (st : State) (settled : FetchResult) :
  (embeddedFrame (render toLowerCase (step st (ProbeSettled settled))) = true
   <-> exists response,
         settled = Fulfilled response /\ (200 <= status response <= 299)%N)
  /\ (statusLabel (render toLowerCase (step st (ProbeSettled settled)))
      = (if embeddedFrame
              (render toLowerCase (step st (ProbeSettled settled)))
         then lit "Running" else lit "Stopped"))
  /\ (statusColor (render toLowerCase (step st (ProbeSettled settled)))
      = (if embeddedFrame
              (render toLowerCase (step st (ProbeSettled settled)))
         then lit "success" else lit "error"))
  /\ visualizerReady (render toLowerCase (step st (ProbeSettled settled)))
     = embeddedFrame (render toLowerCase (step st (ProbeSettled settled))).
Proof.
  split; [| repeat split].
  destruct settled as [response | reason]; simpl.
  - rewrite ok_iff. split.
    + intros H. exists response. split; [reflexivity | exact H].
    + intros [response' [[= <-] H]]. exact H.
  - split; [discriminate | intros [response [H _]]; discriminate].
Qed.
